(** * InterMol: the System model, a force type and the GROMACS driver

    A shallow embedding of [intermol/system.py],
    [intermol/forces/cosine_squared_angle_type.py] and
    [intermol/gromacs/gromacs_driver.py], with the properties of the
    design document stated and settled against it.

    Python objects are mutable and methods may raise, so a method is a
    function from a state to an outcome and a new state.  Floating point
    numbers are the kernel's binary64 floats, which are Python's. *)

From Stdlib Require Import String Ascii List ZArith Bool Lia PrimFloat.
Import ListNotations.
Local Open Scope string_scope.
Local Open Scope list_scope.

Set Implicit Arguments.

(** ** Exceptions and outcomes *)

(** A raised exception: its class and the argument it was built with. *)
Record exn : Type := Exn { exn_class : string; exn_arg : string }.

Definition KeyError (key : string) : exn := Exn "KeyError" key.
Definition IndexError (msg : string) : exn := Exn "IndexError" msg.
Definition ValueError (msg : string) : exn := Exn "ValueError" msg.
Definition IOError (msg : string) : exn := Exn "IOError" msg.

Inductive result (A : Type) : Type :=
| Ok (a : A)
| Raised (e : exn).
Arguments Ok {A} a.
Arguments Raised {A} e.

Definition is_ok {A} (r : result A) : bool :=
  match r with Ok _ => true | Raised _ => false end.

(** ** simtk.unit: units, dimensions, quantities *)

Inductive Dimension : Type :=
| Length | Angle | MolarEnergy | Dimensionless.

Inductive Unit : Type :=
| nanometers | angstroms
| degrees | radians
| kilojoules_per_mole | kilocalories_per_mole
| dimensionless.

Definition dimension_of (u : Unit) : Dimension :=
  match u with
  | nanometers | angstroms => Length
  | degrees | radians => Angle
  | kilojoules_per_mole | kilocalories_per_mole => MolarEnergy
  | dimensionless => Dimensionless
  end.

Definition Dimension_eqb (a b : Dimension) : bool :=
  match a, b with
  | Length, Length | Angle, Angle
  | MolarEnergy, MolarEnergy | Dimensionless, Dimensionless => true
  | _, _ => false
  end.

(** [Unit.is_compatible]: two units are compatible when they measure the
    same dimension. *)
Definition is_compatible (u v : Unit) : bool :=
  Dimension_eqb (dimension_of u) (dimension_of v).

(** [value * unit]: a value tagged with a unit. *)
Record Quantity (A : Type) : Type := mkQuantity { value : A; unit_ : Unit }.

(** ** numpy arrays *)

Record ndarray : Type := mkArray { shape : list nat; data : list float }.

(** [np.zeros(dims)] *)
Definition np_zeros (dims : list nat) : ndarray :=
  mkArray dims (repeat 0%float (fold_right Nat.mul 1%nat dims)).

(** What can be bound to a box vector: a bare array, or a Quantity that
    wraps one. *)
Inductive boxval : Type :=
| Bare (a : ndarray)
| Tagged (q : Quantity ndarray).

(** [v.shape]: a Quantity hands unknown attributes to the value it wraps. *)
Definition shape_of (v : boxval) : list nat :=
  match v with
  | Bare a => shape a
  | Tagged q => shape (value q)
  end.

Definition unit_of (v : boxval) : option Unit :=
  match v with
  | Bare _ => None
  | Tagged q => Some (unit_ q)
  end.

(** [np.array(v)]: a new bare array over the numbers of [v]; numpy reads
    the buffer of the wrapped array, so a unit tag does not survive. *)
Definition np_array (v : boxval) : boxval :=
  match v with
  | Bare a => Bare a
  | Tagged q => Bare (value q)
  end.

(** ** Atoms, molecules, molecule types *)

(** An Atom is used here only as an object: as the element of a sequence
    and as a node of the bond graph, where it is hashed by identity.  It
    is represented by that identity. *)
Definition Atom : Type := nat.

(** A bond template: two 1-based positions in the atom sequence. *)
Record Bond : Type := mkBond { atom1 : Z; atom2 : Z }.

Record Molecule : Type :=
  mkMolecule { molecule_name : string; molecule_atoms : list Atom }.

Record MoleculeType : Type :=
  mkMoleculeType {
      moleculetype_name : string;
      molecules : list Molecule;
      bonds : list Bond }.

(** ** networkx graphs *)

(** [nx.Graph]: a simple undirected graph.  Only [add_edges_from] is used
    on it, so it is kept as its edges, one entry per unordered pair, in the
    order they were first added. *)
Record Graph : Type := mkGraph { edges : list (Atom * Atom) }.

Definition same_edge (e f : Atom * Atom) : bool :=
  (Nat.eqb (fst e) (fst f) && Nat.eqb (snd e) (snd f))
  || (Nat.eqb (fst e) (snd f) && Nat.eqb (snd e) (fst f)).

Definition has_edge (g : Graph) (e : Atom * Atom) : bool :=
  existsb (same_edge e) (edges g).

Definition add_edge (g : Graph) (e : Atom * Atom) : Graph :=
  if has_edge g e then g else mkGraph (edges g ++ [e]).

Definition add_edges_from (g : Graph) (es : list (Atom * Atom)) : Graph :=
  fold_left add_edge es g.

Definition number_of_edges (g : Graph) : nat := length (edges g).

(** ** The System object *)

(** A reference to a graph object: its address in the store. *)
Definition ref : Type := nat.

Record System : Type :=
  mkSystem {
      system_name : string;
      nonbonded_function : Z;
      combination_rule : Z;
      genpairs : string;
      lj_correction : Z;
      coulomb_correction : Z;
      _box_vector : boxval;
      _n_atoms : option Z;
      _molecule_types : list (string * MoleculeType);
      _bondgraph : option ref;
      _bondgraph_per_moleculetype : option ref }.

(** [System.__init__] *)
Definition System_init (name : option string) : System :=
  {| system_name :=
       match name with
       | Some n => if String.eqb n "" then "Untitled" else n
       | None => "Untitled"
       end;
     nonbonded_function := 0;
     combination_rule := 0;
     genpairs := "yes";
     lj_correction := 0;
     coulomb_correction := 0;
     _box_vector := Tagged (mkQuantity (np_zeros [3; 3]%nat) nanometers);
     _n_atoms := None;
     _molecule_types := [];
     _bondgraph := None;
     _bondgraph_per_moleculetype := None |}.

(** ** The state a method runs in *)

(** The System the method is called on, the store of graph objects, the
    records of the module's logger, and a count of how many times the
    [atoms] generator has been run to its end. *)
Record state : Type :=
  mkState {
      self : System;
      heap : list Graph;
      log : list string;
      atom_traversals : nat }.

Definition initial_state (s : System) : state := mkState s [] [] 0.

(** A method: an outcome and the state it leaves. *)
Definition M (A : Type) : Type := state -> result A * state.

Definition ret {A} (a : A) : M A := fun st => (Ok a, st).
Definition raise {A} (e : exn) : M A := fun st => (Raised e, st).
Definition bind {A B} (m : M A) (k : A -> M B) : M B :=
  fun st =>
    match m st with
    | (Ok a, st') => k a st'
    | (Raised e, st') => (Raised e, st')
    end.

Notation "x <- m ;; k" := (bind m (fun x => k))
  (at level 61, m at next level, right associativity).
Notation "m ;;; k" := (bind m (fun _ => k))
  (at level 61, right associativity).

Definition get_self : M System := fun st => (Ok (self st), st).
Definition set_self (s : System) : M unit :=
  fun st => (Ok tt, mkState s (heap st) (log st) (atom_traversals st)).
Definition logger_exception (e : exn) : M unit :=
  fun st =>
    (Ok tt,
     mkState (self st) (heap st) (log st ++ [exn_arg e]) (atom_traversals st)).
Definition count_traversal : M unit :=
  fun st =>
    (Ok tt, mkState (self st) (heap st) (log st) (S (atom_traversals st))).

(** Field updates of the System. *)
Definition with_box_vector (v : boxval) (s : System) : System :=
  mkSystem (system_name s) (nonbonded_function s) (combination_rule s)
    (genpairs s) (lj_correction s) (coulomb_correction s)
    v (_n_atoms s) (_molecule_types s)
    (_bondgraph s) (_bondgraph_per_moleculetype s).

Definition with_n_atoms (n : option Z) (s : System) : System :=
  mkSystem (system_name s) (nonbonded_function s) (combination_rule s)
    (genpairs s) (lj_correction s) (coulomb_correction s)
    (_box_vector s) n (_molecule_types s)
    (_bondgraph s) (_bondgraph_per_moleculetype s).

Definition with_molecule_types (r : list (string * MoleculeType))
  (s : System) : System :=
  mkSystem (system_name s) (nonbonded_function s) (combination_rule s)
    (genpairs s) (lj_correction s) (coulomb_correction s)
    (_box_vector s) (_n_atoms s) r
    (_bondgraph s) (_bondgraph_per_moleculetype s).

Definition with_bondgraph (g : option ref) (s : System) : System :=
  mkSystem (system_name s) (nonbonded_function s) (combination_rule s)
    (genpairs s) (lj_correction s) (coulomb_correction s)
    (_box_vector s) (_n_atoms s) (_molecule_types s)
    g (_bondgraph_per_moleculetype s).

(** ** box_vector *)

(** The getter of [box_vector]. *)
Definition box_vector : M boxval :=
  s <- get_self ;; ret (_box_vector s).

Definition shape_is_3x3 (v : boxval) : bool :=
  match shape_of v with
  | [3; 3]%nat => true
  | _ => false
  end.

(** The setter of [box_vector]: on a shape other than (3, 3) it builds a
    ValueError and hands it to the logger (the text of the array, which
    ends the message, is left out); the statement after the [if] stores
    the array in every case. *)
Definition set_box_vector (v : boxval) : M unit :=
  (if shape_is_3x3 v then ret tt
   else logger_exception (ValueError "Box vector with incorrect format")) ;;;
  s <- get_self ;;
  set_self (with_box_vector (np_array v) s).

(** ** OrderedDict *)

(** An insertion-ordered dictionary with string keys: a list of bindings
    with no key bound twice. *)
Section OrderedDict.
Variable V : Type.

Definition odict : Type := list (string * V).

(** [d.get(k)] *)
Fixpoint od_get (d : odict) (k : string) : option V :=
  match d with
  | [] => None
  | (k', v) :: d' => if String.eqb k k' then Some v else od_get d' k
  end.

(** [k in d] *)
Definition od_mem (d : odict) (k : string) : bool :=
  match od_get d k with Some _ => true | None => false end.

(** [d[k] = v]: a bound key keeps its place, a new one goes last. *)
Fixpoint od_set (d : odict) (k : string) (v : V) : odict :=
  match d with
  | [] => [(k, v)]
  | (k', v') :: d' =>
      if String.eqb k k' then (k', v) :: d' else (k', v') :: od_set d' k v
  end.

(** [del d[k]], used on bound keys only. *)
Fixpoint od_del (d : odict) (k : string) : odict :=
  match d with
  | [] => []
  | (k', v') :: d' =>
      if String.eqb k k' then d' else (k', v') :: od_del d' k
  end.

(** [d.values()] *)
Definition od_values (d : odict) : list V := map snd d.

Definition od_keys (d : odict) : list string := map fst d.

(** [OrderedDict(zip(ks, vs))] *)
Fixpoint od_of_zip (ks : list string) (vs : list V) (d : odict) : odict :=
  match ks, vs with
  | k :: ks', v :: vs' => od_of_zip ks' vs' (od_set d k v)
  | _, _ => d
  end.
End OrderedDict.

(** ** Sequences and generators *)

(** [l[i]] on a Python sequence: a negative index counts from the end. *)
Definition py_index {A} (l : list A) (i : Z) : result A :=
  let n := Z.of_nat (length l) in
  let j := if (i <? 0)%Z then (i + n)%Z else i in
  if ((j <? 0)%Z || (n <=? j)%Z)%bool
  then Raised (IndexError "list index out of range")
  else match nth_error l (Z.to_nat j) with
       | Some a => Ok a
       | None => Raised (IndexError "list index out of range")
       end.

(** What a generator does when it is run to its end: the items it yields,
    and the exception that stopped it, if one did. *)
Definition gen (A : Type) : Type := (list A * option exn)%type.

Definition gen_yield {A} (a : A) : gen A := ([a], None).
Definition gen_raise {A} (e : exn) : gen A := ([], Some e).

(** [for x in l: body], where the body yields. *)
Fixpoint gen_for {A B} (l : list A) (body : A -> gen B) : gen B :=
  match l with
  | [] => ([], None)
  | x :: l' =>
      match body x with
      | (ys, Some e) => (ys, Some e)
      | (ys, None) =>
          let (zs, stop) := gen_for l' body in (ys ++ zs, stop)
      end
  end.

(** ** Registries *)

(** [System.add_molecule_type] *)
Definition add_molecule_type (molecule_type : MoleculeType) : M unit :=
  s <- get_self ;;
  set_self
    (with_molecule_types
       (od_set (_molecule_types s) (moleculetype_name molecule_type)
          molecule_type) s).

(** Modelled from the spec: [MoleculeType.add_molecule], whose class is
    not among the sources; it "appends m to the existing MoleculeType
    registry entry". *)
Definition MoleculeType_add_molecule (mt : MoleculeType) (m : Molecule)
  : MoleculeType :=
  mkMoleculeType (moleculetype_name mt) (molecules mt ++ [m]) (bonds mt).

(** [System.add_molecule]: the subscript raises KeyError on a name that
    is not registered; otherwise the registered object is changed in
    place. *)
Definition add_molecule (molecule : Molecule) : M unit :=
  s <- get_self ;;
  match od_get (_molecule_types s) (molecule_name molecule) with
  | None => raise (KeyError (molecule_name molecule))
  | Some mt =>
      set_self
        (with_molecule_types
           (od_set (_molecule_types s) (molecule_name molecule)
              (MoleculeType_add_molecule mt molecule)) s)
  end.

(** The property [molecule_types]. *)
Definition molecule_types (s : System) : odict MoleculeType :=
  _molecule_types s.

(** ** Iteration surfaces *)

(** The generator [atoms]; nothing in it can raise. *)
Definition atoms (s : System) : list Atom :=
  flat_map
    (fun mol_type =>
       flat_map (fun mol => molecule_atoms mol) (molecules mol_type))
    (od_values (molecule_types s)).

(** The generator [bonds]. *)
Definition system_bonds (s : System) : list Bond :=
  flat_map (fun mol_type => bonds mol_type) (od_values (molecule_types s)).

(** One bond template resolved against the atoms of one molecule. *)
Definition resolve_bond (molecule : Molecule) (bond : Bond)
  : gen (Atom * Atom) :=
  match py_index (molecule_atoms molecule) (atom1 bond - 1) with
  | Raised e => gen_raise e
  | Ok a1 =>
      match py_index (molecule_atoms molecule) (atom2 bond - 1) with
      | Raised e => gen_raise e
      | Ok a2 => gen_yield (a1, a2)
      end
  end.

(** The generator [connected_pairs]. *)
Definition connected_pairs (s : System) : gen (Atom * Atom) :=
  gen_for (od_values (molecule_types s)) (fun mol_type =>
    gen_for (molecules mol_type) (fun molecule =>
      gen_for (bonds mol_type) (fun bond => resolve_bond molecule bond))).

(** A node of the per-type graph: an atom paired with its molecule type. *)
Definition typed_atom : Type := (Atom * MoleculeType)%type.

Definition tag_pair (mol_type : MoleculeType) (p : Atom * Atom)
  : typed_atom * typed_atom :=
  ((fst p, mol_type), (snd p, mol_type)).

Definition gen_map {A B} (f : A -> B) (g : gen A) : gen B :=
  (map f (fst g), snd g).

(** What one molecule type contributes to
    [connected_pairs_per_moleculetype]: the loop over its molecules is
    left by [break] at the end of its first round. *)
Definition pairs_of_moleculetype (mol_type : MoleculeType)
  : gen (typed_atom * typed_atom) :=
  match molecules mol_type with
  | [] => ([], None)
  | molecule :: _ =>
      gen_for (bonds mol_type) (fun bond =>
        gen_map (tag_pair mol_type) (resolve_bond molecule bond))
  end.

(** The generator [connected_pairs_per_moleculetype]. *)
Definition connected_pairs_per_moleculetype (s : System)
  : gen (typed_atom * typed_atom) :=
  gen_for (od_values (molecule_types s)) pairs_of_moleculetype.

(** ** n_atoms *)

(** Truth value of what [_n_atoms] holds: None and 0 are false. *)
Definition truthy (n : option Z) : bool :=
  match n with
  | None => false
  | Some z => negb (Z.eqb z 0)
  end.

(** The getter of [n_atoms]: [if not self._n_atoms] runs the [atoms]
    generator to its end and stores the length. *)
Definition n_atoms : M (option Z) :=
  s <- get_self ;;
  (if negb (truthy (_n_atoms s))
   then count_traversal ;;;
        set_self (with_n_atoms (Some (Z.of_nat (length (atoms s)))) s)
   else ret tt) ;;;
  s' <- get_self ;;
  ret (_n_atoms s').

(** The setter of [n_atoms]. *)
Definition set_n_atoms (n : Z) : M unit :=
  s <- get_self ;; set_self (with_n_atoms (Some n) s).

(** ** bondgraph *)

(** [nx.Graph()]: a new object in the store. *)
Definition new_graph : M ref :=
  fun st =>
    (Ok (length (heap st)),
     mkState (self st) (heap st ++ [mkGraph []]) (log st)
       (atom_traversals st)).

Fixpoint list_update {A} (l : list A) (i : nat) (f : A -> A) : list A :=
  match l, i with
  | [], _ => []
  | x :: l', O => f x :: l'
  | x :: l', S i' => x :: list_update l' i' f
  end.

(** [g.add_edges_from(pairs)] on the object at [r], with [pairs] a
    generator: the pairs it yields are added one by one, and the exception
    that stops it, if any, leaves the method with those edges in place. *)
Definition graph_add_edges_from (r : ref) (pairs : gen (Atom * Atom))
  : M unit :=
  fun st =>
    let st' :=
      mkState (self st)
        (list_update (heap st) r (fun g => add_edges_from g (fst pairs)))
        (log st) (atom_traversals st) in
    match snd pairs with
    | None => (Ok tt, st')
    | Some e => (Raised e, st')
    end.

(** The property [bondgraph]. *)
Definition bondgraph : M ref :=
  s <- get_self ;;
  match _bondgraph s with
  | Some r => ret r
  | None =>
      r <- new_graph ;;
      set_self (with_bondgraph (Some r) s) ;;;
      s' <- get_self ;;
      graph_add_edges_from r (connected_pairs s') ;;;
      ret r
  end.

(** Reading the object behind a reference. *)
Definition deref (st : state) (r : ref) : option Graph := nth_error (heap st) r.

(** ** forces: CosineSquaredAngleType *)

Definition UnitMismatch (msg : string) : exn := Exn "UnitMismatch" msg.

(** An argument of a constructor of a force type. *)
Inductive pyarg : Type :=
| ArgLabel (label : string)
| ArgFlag (flag : bool)
| ArgQuantity (q : Quantity float).

(** Modelled from the spec: the decorator [accepts_compatible_units] of
    [intermol.decorators], which is not among the sources.  "Construction
    fails with UnitMismatch if any supplied parameter's dimension does not
    match the declared expectation"; a parameter declared with None is not
    examined. *)
Fixpoint accepts_compatible_units (expected : list (option Unit))
  (args : list pyarg) : result unit :=
  match expected, args with
  | None :: expected', _ :: args' => accepts_compatible_units expected' args'
  | Some u :: expected', ArgQuantity q :: args' =>
      if is_compatible (unit_ q) u
      then accepts_compatible_units expected' args'
      else Raised (UnitMismatch "incompatible units")
  | Some u :: _, _ :: _ => Raised (UnitMismatch "not a quantity")
  | _, _ => Ok tt
  end.

(** The slots of the class, after those of its base. *)
Record CosineSquaredAngleType : Type :=
  mkCosineSquaredAngleType {
      bondingtype1 : string;
      bondingtype2 : string;
      bondingtype3 : string;
      c : bool;
      theta : Quantity float;
      k : Quantity float }.

(** The units the decorator is given on [__init__], in the order of the
    parameters after [self]. *)
Definition CosineSquaredAngleType_units : list (option Unit) :=
  [None; None; None; Some degrees; Some kilojoules_per_mole; None].

Definition default_theta : Quantity float := mkQuantity 0%float degrees.
Definition default_k : Quantity float := mkQuantity 0%float kilojoules_per_mole.
Definition default_c : bool := false.

(** [CosineSquaredAngleType(bondingtype1, bondingtype2, bondingtype3,
    theta, k, c)]: the decorated [__init__].  Its body hands the labels
    and [c] to [AbstractAngleType.__init__] (modelled from the spec: the
    base class is not among the sources; it keeps the ordered labels of
    the type) and binds [theta] and [k]. *)
Definition CosineSquaredAngleType_init (b1 b2 b3 : string)
  (theta0 k0 : Quantity float) (c0 : bool) : result CosineSquaredAngleType :=
  match accepts_compatible_units CosineSquaredAngleType_units
          [ArgLabel b1; ArgLabel b2; ArgLabel b3;
           ArgQuantity theta0; ArgQuantity k0; ArgFlag c0] with
  | Raised e => Raised e
  | Ok _ => Ok (mkCosineSquaredAngleType b1 b2 b3 c0 theta0 k0)
  end.

(** ** gromacs driver: grouping of energy terms *)

(** energy terms we are ignoring *)
Definition unwanted : list string :=
  ["Kinetic En."; "Total Energy"; "Temperature"; "Pressure";
   "Volume"; "Box-X"; "Box-Y"; "Box-Z"; "Box-atomic_number";
   "Pres. DC"; "Vir-XY"; "Vir-XX"; "Vir-XZ"; "Vir-YY"; "Vir-YX";
   "Vir-YZ"; "Vir-ZX"; "Vir-ZY"; "Vir-ZZ"; "pV"; "Density"; "Enthalpy"].

(** An energy: every value of [e_out] is a Quantity in kilojoules per
    mole, and is kept as its number.  Adding two of them adds the
    numbers. *)
Definition energy : Type := float.

(** [d[key]] as an expression. *)
Definition od_item {V} (d : odict V) (key : string) : result V :=
  match od_get d key with
  | Some v => Ok v
  | None => Raised (KeyError key)
  end.

(** [for group in unwanted: if group in e_out: del e_out[group]] *)
Definition discard_unwanted (e_out : odict energy) : odict energy :=
  fold_left
    (fun d group => if od_mem d group then od_del d group else d)
    unwanted e_out.

(** [e_out[name] += e_out[group]] *)
Definition add_into (name group : string) (e_out : odict energy)
  : result (odict energy) :=
  match od_item e_out name with
  | Raised e => Raised e
  | Ok total =>
      match od_item e_out group with
      | Raised e => Raised e
      | Ok term => Ok (od_set e_out name (total + term)%float)
      end
  end.

(** [e_out[name] = 0 * units.kilojoules_per_mole], then the loop that
    adds the terms of [groups] found in [e_out]. *)
Fixpoint sum_groups (name : string) (groups : list string)
  (e_out : odict energy) : result (odict energy) :=
  match groups with
  | [] => Ok e_out
  | group :: groups' =>
      if od_mem e_out group
      then match add_into name group e_out with
           | Raised e => Raised e
           | Ok e_out' => sum_groups name groups' e_out'
           end
      else sum_groups name groups' e_out
  end.

Definition group_into (name : string) (groups : list string)
  (e_out : odict energy) : result (odict energy) :=
  sum_groups name groups (od_set e_out name 0%float).

Definition dispersive : list string := ["LJ (SR)"; "LJ-14"; "Disper. corr."].
Definition electrostatic : list string :=
  ["Coulomb (SR)"; "Coulomb-14"; "Coul. recip."].
Definition all_dihedrals : list string :=
  ["Ryckaert-Bell."; "Proper Dih."; "Improper Dih."].

Definition rbind {A B} (r : result A) (f : A -> result B) : result B :=
  match r with
  | Ok a => f a
  | Raised e => Raised e
  end.

(** [_group_energy_terms], from the point where the lines of the file
    have been read into [energy_types] and [energy_values]. *)
Definition _group_energy_terms (energy_types : list string)
  (energy_values : list energy) (ener_xvg : string)
  : result (odict energy * string) :=
  let e_out := od_of_zip energy_types energy_values [] in
  let e_out := discard_unwanted e_out in
  rbind (group_into "Dispersive" dispersive e_out) (fun e_out =>
  rbind (group_into "Electrostatic" electrostatic e_out) (fun e_out =>
  rbind (od_item e_out "Electrostatic") (fun es =>
  rbind (od_item e_out "Dispersive") (fun ds =>
  let e_out := od_set e_out "Non-bonded" (es + ds)%float in
  rbind (group_into "All dihedrals" all_dihedrals e_out) (fun e_out =>
  Ok (e_out, ener_xvg)))))).

(** ** gromacs driver: choice of the binaries *)

(** [os.path.join(a, b)] of posixpath. *)
Definition os_path_join (a b : string) : string :=
  if prefix "/" b then b
  else if String.eqb a "" then b
  else if String.eqb (substring (String.length a - 1) 1 a) "/"
       then a ++ b
       else a ++ "/" ++ b.

Definition TypeError (msg : string) : exn := Exn "TypeError" msg.

(** [os.path.join(gro_path, name)], where [gro_path] may be None, the
    default of the parameter: the join of None raises. *)
Definition join_gro_path (gro_path : option string) (name : string)
  : result string :=
  match gro_path with
  | None => Raised (TypeError "expected str, not NoneType")
  | Some path => Ok (os_path_join path name)
  end.

(** [list(s)] of a string: the list of its characters, each of them a
    string of length one. *)
Definition py_list_of_str (s : string) : list string :=
  map (fun ch => String ch EmptyString) (list_ascii_of_string s).

(** What the names [grompp_bin], [mdrun_bin] and [genergy_bin] are bound
    to: three lists of strings. *)
Record binaries : Type :=
  mkBinaries {
      grompp_bin : list string;
      mdrun_bin : list string;
      genergy_bin : list string }.

Section Binaries.
(** [which(program)], of [intermol.tests.testing_tools], which is not
    among the sources: whatever it does with the value it is handed,
    answer true or false, or raise. *)
Variable which : list string -> result bool.
Variable gro_path : option string.

(** The three names bound in one round of the loop: each is [list(...)]
    of the joined path. *)
Definition binaries_for (s : string) : result binaries :=
  rbind (join_gro_path gro_path ("grompp" ++ s)) (fun grompp =>
  rbind (join_gro_path gro_path ("mdrun" ++ s)) (fun mdrun =>
  rbind (join_gro_path gro_path ("g_energy" ++ s)) (fun genergy =>
  Ok (mkBinaries (py_list_of_str grompp) (py_list_of_str mdrun)
        (py_list_of_str genergy))))).

(** [which(grompp_bin) and which(mdrun_bin) and which(genergy_bin)]: the
    calls are made from left to right, up to the first that is false. *)
Definition usable (b : binaries) : result bool :=
  rbind (which (grompp_bin b)) (fun found_grompp =>
  if found_grompp then
    rbind (which (mdrun_bin b)) (fun found_mdrun =>
    if found_mdrun then which (genergy_bin b) else Ok false)
  else Ok false).

(** [for s in suff: ...], carrying the names bound so far and
    [found_binaries]; the [break] ends the loop. *)
Fixpoint find_loop (suff : list string) (bound : option binaries)
  (found_binaries : bool) : result (option binaries * bool) :=
  match suff with
  | [] => Ok (bound, found_binaries)
  | s :: suff' =>
      match binaries_for s with
      | Raised e => Raised e
      | Ok b =>
          match usable b with
          | Raised e => Raised e
          | Ok true =>
              if String.eqb s "_d" then Ok (Some b, true)
              else if String.eqb s "" then find_loop suff' (Some b) true
              else find_loop suff' (Some b) found_binaries
          | Ok false => find_loop suff' (Some b) found_binaries
          end
      end
  end.

(** Lines 100 to 115 of [gromacs_energies]: the lists the three stages
    are then run with. *)
Definition gromacs_energies_binaries : result binaries :=
  match find_loop ["_d"; ""] None false with
  | Raised e => Raised e
  | Ok (_, false) => Raised (IOError "Unable to find GROMACS executables.")
  | Ok (Some b, true) => Ok b
  | Ok (None, true) => Raised (Exn "UnboundLocalError" "grompp_bin")
  end.

(** Line 118 of [gromacs_energies]: the command of the first stage,
    [grompp_bin] extended by its options; [run_subprocess] is handed this
    list, so its first item is the program that is run.  [mdp] is the
    absolute path of the run control file, and [tpr] and [mdout] are the
    paths of the two output files in the directory of [top]. *)
Definition grompp_command (top gro mdp tpr mdout : string)
  : result (list string) :=
  rbind gromacs_energies_binaries (fun b =>
  Ok (grompp_bin b
      ++ ["-f"; mdp; "-c"; gro; "-p"; top; "-o"; tpr; "-po"; mdout;
          "-maxwarn"; "5"])).
End Binaries.

(** ** gromacs driver: _find_gmx_binaries *)

Section FindGmxBinaries.
(** Truth value of [which(name)] on the name of a program, and the two
    arguments of the function. *)
Variable which : string -> bool.
Variables gropath grosuff : string.

(** The inner function [gmx_path]. *)
Definition gmx_path (binary_path : string) : string :=
  os_path_join gropath (binary_path ++ grosuff).

(** [_find_gmx_binaries]: the three command lines, or IOError. *)
Definition _find_gmx_binaries
  : result (list string * list string * list string) :=
  if which "gmx_d" then
    let main_binary := gmx_path "gmx_d" in
    Ok ([main_binary; "grompp"], [main_binary; "mdrun"],
        [main_binary; "energy"])
  else if which "grompp_d" && which "mdrun_d" && which "g_energy_d" then
    Ok ([gmx_path "grompp_d"], [gmx_path "mdrun_d"],
        [gmx_path "g_energy_d"])
  else if which "gmx" then
    let main_binary := gmx_path "gmx" in
    Ok ([main_binary; "grompp"], [main_binary; "mdrun"],
        [main_binary; "energy"])
  else if which "grompp" && which "mdrun" && which "g_energy" then
    Ok ([gmx_path "grompp"], [gmx_path "mdrun"], [gmx_path "g_energy"])
  else Raised (IOError "Unable to find gromacs executables.").
End FindGmxBinaries.

(** ** gromacs driver: reading the lines of the energy file *)

(** The character that delimits a legend. *)
Definition double_quote : ascii := "034"%char.

(** [s.split(sep)] for a separator of one character. *)
Fixpoint py_split (sep : ascii) (s : string) : list string :=
  match s with
  | EmptyString => [EmptyString]
  | String ch s' =>
      if Ascii.eqb ch sep then EmptyString :: py_split sep s'
      else match py_split sep s' with
           | w :: ws => String ch w :: ws
           | [] => [String ch EmptyString]
           end
  end.

(** The characters [s.split()] splits a byte string at: space, tab,
    newline, vertical tab, form feed, carriage return. *)
Definition is_space (ch : ascii) : bool :=
  existsb (Ascii.eqb ch)
    [" "; "009"; "010"; "011"; "012"; "013"]%char.

Definition starts_word (s : string) : bool :=
  match s with
  | EmptyString => false
  | String ch _ => negb (is_space ch)
  end.

(** [s.split()]: the words of [s] between runs of white space. *)
Fixpoint py_split_ws (s : string) : list string :=
  match s with
  | EmptyString => []
  | String ch s' =>
      if is_space ch then py_split_ws s'
      else if starts_word s' then
             match py_split_ws s' with
             | w :: ws => String ch w :: ws
             | [] => [String ch EmptyString]
             end
           else String ch EmptyString :: py_split_ws s'
  end.

(** A list comprehension whose element expression may raise. *)
Fixpoint map_result {A B} (f : A -> result B) (l : list A)
  : result (list B) :=
  match l with
  | [] => Ok []
  | x :: l' =>
      match f x with
      | Raised e => Raised e
      | Ok y =>
          match map_result f l' with
          | Raised e => Raised e
          | Ok ys => Ok (y :: ys)
          end
      end
  end.

(** The list [energy_types]: of every line that begins with '@ s', the
    second of the pieces that the double quotes cut it into. *)
Definition energy_types_of (all_lines : list string)
  : result (list string) :=
  map_result (fun line => py_index (py_split double_quote line) 1)
    (filter (fun line => String.eqb (substring 0 3 line) "@ s") all_lines).

Section ReadEnergies.
(** [float(x)], the conversion of the language. *)
Variable float_of_string : string -> result float.

(** [[float(x) * units.kilojoule_per_mole
      for x in all_lines[-1].split()[1:]]] *)
Definition energy_values_of (all_lines : list string)
  : result (list energy) :=
  rbind (py_index all_lines (-1)) (fun last_line =>
    map_result float_of_string (tl (py_split_ws last_line))).

(** [_group_energy_terms] from the lines that [f.readlines()] returned. *)
Definition _group_energy_terms_of_lines (all_lines : list string)
  (ener_xvg : string) : result (odict energy * string) :=
  rbind (energy_types_of all_lines) (fun energy_types =>
  rbind (energy_values_of all_lines) (fun energy_values =>
  _group_energy_terms energy_types energy_values ener_xvg)).
End ReadEnergies.

(** * Vocabulary of the properties *)

(** Measures, conditions and sample inputs that the statements below are
    written with.  None of them is part of the program. *)

(** A 2 by 2 array, for a System that still has the box its constructor
    gave it. *)
Definition malformed_box : boxval := Bare (np_zeros [2; 2]%nat).

(** A molecule type with one molecule of three atoms and two bonds. *)
Definition water : MoleculeType :=
  mkMoleculeType "SOL" [mkMolecule "SOL" [1; 2; 3]%nat]
    [mkBond 1 2; mkBond 1 3].

(** A new System with [water] registered. *)
Definition water_state : state :=
  snd (add_molecule_type water (initial_state (System_init None))).

(** An edge with its smaller end first. *)
Definition norm_edge (e : Atom * Atom) : Atom * Atom :=
  (Nat.min (fst e) (snd e), Nat.max (fst e) (snd e)).

(** The number of unordered pairs that occur in a list of pairs. *)
Fixpoint count_distinct (ps : list (Atom * Atom)) : nat :=
  match ps with
  | [] => 0
  | p :: ps' =>
      if existsb (same_edge p) ps' then count_distinct ps'
      else S (count_distinct ps')
  end.

(** No two entries of the list join the same two atoms. *)
Fixpoint distinct_pairs (ps : list (Atom * Atom)) : bool :=
  match ps with
  | [] => true
  | p :: ps' => negb (existsb (same_edge p) ps') && distinct_pairs ps'
  end.

(** The state a first read of [bondgraph] leaves: a new graph object that
    holds the pairs yielded, and the System pointing at it. *)
Definition bondgraph_built (st : state) (ps : list (Atom * Atom)) : state :=
  mkState (with_bondgraph (Some (length (heap st))) (self st))
    (heap st ++ [add_edges_from (mkGraph []) ps])
    (log st) (atom_traversals st).

(** A molecule type that lists the bond between its two atoms twice, once
    from each end. *)
Definition twice_bonded : MoleculeType :=
  mkMoleculeType "HH" [mkMolecule "HH" [1; 2]%nat] [mkBond 1 2; mkBond 2 1].

(** A new System with [twice_bonded] registered. *)
Definition twice_bonded_state : state :=
  snd (add_molecule_type twice_bonded (initial_state (System_init None))).

(** The molecule type a yielded pair carries. *)
Definition pair_moleculetype (p : typed_atom * typed_atom) : MoleculeType :=
  snd (fst p).

(** Equality of molecule types is decidable. *)
Definition MoleculeType_eq_dec (x y : MoleculeType) : {x = y} + {x <> y}.
Proof.
  repeat decide equality; try apply string_dec.
Defined.

(** The yielded pair belongs to the molecule type [mt]. *)
Definition attributed_to (mt : MoleculeType) (p : typed_atom * typed_atom)
  : bool :=
  if MoleculeType_eq_dec (pair_moleculetype p) mt then true else false.

(** The pairs of [connected_pairs_per_moleculetype] that belong to [mt]. *)
Definition pairs_attributed_to (mt : MoleculeType) (s : System)
  : list (typed_atom * typed_atom) :=
  filter (attributed_to mt) (fst (connected_pairs_per_moleculetype s)).

(** Every molecule type is filed under its own name, as
    [add_molecule_type] files it. *)
Definition keyed_by_name (d : odict MoleculeType) : Prop :=
  NoDup (od_keys d) /\
  Forall (fun kv => fst kv = moleculetype_name (snd kv)) d.

(** Water in three molecules: they give the two pairs that one gives. *)
Definition water3 : MoleculeType :=
  mkMoleculeType "SOL"
    [mkMolecule "SOL" [1; 2; 3]%nat; mkMolecule "SOL" [4; 5; 6]%nat;
     mkMolecule "SOL" [7; 8; 9]%nat]
    [mkBond 1 2; mkBond 1 3].

(** A new System with [water3] registered. *)
Definition water3_system : System :=
  self (snd (add_molecule_type water3 (initial_state (System_init None)))).

(** A molecule type that has a bond template and no Molecule yet. *)
Definition unpopulated : MoleculeType :=
  mkMoleculeType "ION" [] [mkBond 1 2].

(** A new System with [unpopulated] registered. *)
Definition unpopulated_system : System :=
  self
    (snd (add_molecule_type unpopulated (initial_state (System_init None)))).

(** [total] plus the terms of [groups] that [d] binds, added in the order
    of [groups]; a term that [d] does not bind adds nothing. *)
Definition sum_from (d : odict energy) (groups : list string)
  (total : energy) : energy :=
  fold_left
    (fun total group =>
       match od_get d group with
       | Some term => (total + term)%float
       | None => total
       end)
    groups total.

(** The sum, from zero, of the terms of [groups] that [d] binds. *)
Definition sum_present (groups : list string) (d : odict energy) : energy :=
  sum_from d groups 0%float.

(** The four keys the grouping adds. *)
Definition category_names : list string :=
  ["Dispersive"; "Electrostatic"; "Non-bonded"; "All dihedrals"].

(** [key in l] for a list of strings. *)
Definition mentions (l : list string) (key : string) : bool :=
  existsb (String.eqb key) l.

(** The terms of the example and their values, in the order of the
    file. *)
Definition example_types : list string :=
  ["LJ (SR)"; "Coulomb (SR)"; "Kinetic En."].
Definition example_values : list energy :=
  [10%float; (-20)%float; 5%float].

(** A [which] that finds whatever it is asked for. *)
Definition which_finds_all : list string -> result bool := fun _ => Ok true.

(** A [which] that finds the programs whose name does not end in _d. *)
Definition which_finds_single : list string -> result bool :=
  fun program =>
    match rev program with
    | "d" :: "_" :: _ => Ok false
    | _ => Ok true
    end.

(** A [which] that finds nothing. *)
Definition which_finds_none : list string -> result bool :=
  fun _ => Ok false.

(** The lists of characters bound for the suffix [s] under the directory
    [path]. *)
Definition character_lists (path s : string) : binaries :=
  mkBinaries
    (py_list_of_str (os_path_join path ("grompp" ++ s)))
    (py_list_of_str (os_path_join path ("mdrun" ++ s)))
    (py_list_of_str (os_path_join path ("g_energy" ++ s))).

(** The state after registering the molecule types of a list, one after
    the other. *)
Definition register_all (mts : list MoleculeType) (st : state) : state :=
  fold_left (fun st mt => snd (add_molecule_type mt st)) mts st.

(** The atom a 1-based position denotes in a molecule of [n] atoms, for a
    position from [1 - n] to [n]: positions from [1 - n] to 0 count from
    the end. *)
Definition atom_at (m : Molecule) (i : Z) : option Atom :=
  nth_error (molecule_atoms m)
    (Z.to_nat ((i - 1) mod Z.of_nat (length (molecule_atoms m)))).

(** The positions that denote an atom of [m]. *)
Definition position_ok (m : Molecule) (i : Z) : Prop :=
  (1 - Z.of_nat (length (molecule_atoms m)) <= i
   <= Z.of_nat (length (molecule_atoms m)))%Z.

(** A molecule type cut down to its first molecule. *)
Definition first_molecule_only (mt : MoleculeType) : MoleculeType :=
  mkMoleculeType (moleculetype_name mt) (firstn 1 (molecules mt)) (bonds mt).

(** A System whose molecule types are cut down to their first molecule. *)
Definition first_molecules (s : System) : System :=
  with_molecule_types
    (map (fun kv => (fst kv, first_molecule_only (snd kv)))
       (molecule_types s)) s.

(** A pair of tagged atoms without the tags. *)
Definition untag (p : typed_atom * typed_atom) : Atom * Atom :=
  (fst (fst p), fst (snd p)).

(** [ch in s] for a character and a string. *)
Fixpoint contains_char (ch : ascii) (s : string) : bool :=
  match s with
  | EmptyString => false
  | String ch' s' => Ascii.eqb ch' ch || contains_char ch s'
  end.

(** A line that holds [name] between its first two double quotes. *)
Definition legend_line (line name : string) : Prop :=
  exists before after,
    line = (before ++ String double_quote
                        (name ++ String double_quote after))%string /\
    contains_char double_quote before = false /\
    contains_char double_quote name = false.

(** The names of the programs that are built for double precision. *)
Definition double_precision_names : list string :=
  ["gmx_d"; "grompp_d"; "mdrun_d"; "g_energy_d"].


(** [name] between double quotes. *)
Definition quoted (name : string) : string :=
  String double_quote (name ++ String double_quote EmptyString).

(** The lines of a small energy file: a comment, a title, two legends and
    one line of numbers. *)
Definition example_file : list string :=
  ["# gmx energy";
   "@    title energies";
   ("@ s0 legend " ++ quoted "Bond")%string;
   ("@ s1 legend " ++ quoted "LJ (SR)")%string;
   "    0.000000  12.5   -3.25"].

(** * Properties *)

(** ** box_vector *)

Lemma set_box_vector_outcome (v : boxval) (st : state) :
  fst (set_box_vector v st) = Ok tt.
Proof.
  unfold set_box_vector, bind.
  destruct (shape_is_3x3 v); reflexivity.
Qed.

Lemma set_box_vector_stores (v : boxval) (st : state) :
  _box_vector (self (snd (set_box_vector v st))) = np_array v.
Proof.
  unfold set_box_vector, bind.
  destruct (shape_is_3x3 v); reflexivity.
Qed.

Lemma set_box_vector_log (v : boxval) (st : state) :
  log (snd (set_box_vector v st)) =
  if shape_is_3x3 v then log st
  else log st ++ ["Box vector with incorrect format"].
Proof.
  unfold set_box_vector, bind.
  destruct (shape_is_3x3 v); reflexivity.
Qed.

Lemma shape_is_3x3_iff (v : boxval) :
  shape_is_3x3 v = true <-> shape_of v = [3; 3]%nat.
Proof.
  unfold shape_is_3x3.
  destruct (shape_of v) as [|[|[|[|[|a]]]] [|[|[|[|[|b]]]] [|x l]]];
    split; intro H; try reflexivity; try discriminate H.
Qed.

(** C1 (the code departs from it): assigning a box vector whose shape is
    not (3, 3) should raise and leave the stored box vector as it was.  On
    a new System and a 2 by 2 array the setter returns normally, the
    malformed array replaces the stored box vector, and the only trace is
    one record in the log. *)
Theorem set_box_vector_malformed_is_stored :
  let st := initial_state (System_init None) in
  let st' := snd (set_box_vector malformed_box st) in
  shape_of malformed_box <> [3; 3]%nat /\
  fst (set_box_vector malformed_box st) = Ok tt /\
  _box_vector (self st') = malformed_box /\
  _box_vector (self st') <> _box_vector (self st) /\
  log st' = ["Box vector with incorrect format"].
Proof.
  cbv zeta. repeat split; try reflexivity; discriminate.
Qed.

(** C10: after [system.box_vector = v] with [v] a 3 by 3 array tagged with
    a unit, the box vector that is stored and read back is [np.array(v)],
    the bare numbers of [v] with no unit, although the box vector of a new
    System is a quantity in nanometers. *)
Theorem set_box_vector_strips_unit (st : state) (v : Quantity ndarray)
  (name : option string) :
  shape (value v) = [3; 3]%nat ->
  let st' := snd (set_box_vector (Tagged v) st) in
  fst (set_box_vector (Tagged v) st) = Ok tt /\
  fst (box_vector st') = Ok (np_array (Tagged v)) /\
  _box_vector (self st') = Bare (value v) /\
  unit_of (_box_vector (self st')) = None /\
  unit_of (_box_vector (System_init name)) = Some nanometers.
Proof.
  intros Hshape st'. subst st'.
  split; [apply set_box_vector_outcome|].
  pose proof (set_box_vector_stores (Tagged v) st) as Hst.
  split.
  - unfold box_vector, bind, get_self, ret. now rewrite Hst.
  - rewrite Hst. repeat split.
Qed.

(** A box of 3 by 3 zeros in angstroms, assigned to a new System. *)
Lemma set_box_vector_strips_unit_witness :
  let v := mkQuantity (np_zeros [3; 3]%nat) angstroms in
  let st := initial_state (System_init None) in
  shape (value v) = [3; 3]%nat /\
  unit_of (_box_vector (self (snd (set_box_vector (Tagged v) st)))) = None.
Proof.
  cbv zeta. split; [reflexivity|].
  apply (set_box_vector_strips_unit
           (initial_state (System_init None))
           (mkQuantity (np_zeros [3; 3]%nat) angstroms) None).
  reflexivity.
Defined.

(** ** n_atoms *)

Lemma n_atoms_cached (st : state) (n : Z) :
  _n_atoms (self st) = Some n -> n <> 0%Z ->
  n_atoms st = (Ok (Some n), st).
Proof.
  intros Hn Hnz.
  unfold n_atoms, bind, get_self, ret. rewrite Hn. simpl.
  destruct (Z.eqb_spec n 0) as [E|_]; [contradiction|].
  simpl. now rewrite Hn.
Qed.

(** The first read counts the atoms and stores the count. *)
Lemma n_atoms_first_read (st : state) :
  _n_atoms (self st) = None ->
  let count := Z.of_nat (length (atoms (self st))) in
  fst (n_atoms st) = Ok (Some count) /\
  _n_atoms (self (snd (n_atoms st))) = Some count /\
  atom_traversals (snd (n_atoms st)) = S (atom_traversals st).
Proof.
  intros Hn count.
  unfold n_atoms, bind, get_self, ret, count_traversal, set_self.
  rewrite Hn. simpl. repeat split.
Qed.

(** A count other than 0 that was assigned is read back with no pass over
    the atoms. *)
Lemma n_atoms_after_set (st : state) (n : Z) :
  n <> 0%Z ->
  let st' := snd (set_n_atoms n st) in
  n_atoms st' = (Ok (Some n), st') /\
  atom_traversals st' = atom_traversals st.
Proof.
  intros Hnz st'. split; [|reflexivity].
  apply n_atoms_cached; [reflexivity|assumption].
Qed.

(** C8 (the code departs from it): a count that was assigned should be
    read back as it is, with no pass over the atoms.  After
    [s.n_atoms = 0] on a System of three atoms the read finds the stored 0
    false, runs over the atoms once more and returns 3. *)
Theorem n_atoms_zero_is_recounted :
  let st := snd (set_n_atoms 0 water_state) in
  _n_atoms (self st) = Some 0%Z /\
  fst (n_atoms st) = Ok (Some 3%Z) /\
  atom_traversals (snd (n_atoms st)) = S (atom_traversals st).
Proof.
  cbv zeta. repeat split.
Qed.

(** ** add_molecule *)

Lemma add_molecule_unregistered (st : state) (m : Molecule) :
  od_get (_molecule_types (self st)) (molecule_name m) = None ->
  add_molecule m st = (Raised (KeyError (molecule_name m)), st).
Proof.
  intro Hget.
  unfold add_molecule, bind, get_self, raise. now rewrite Hget.
Qed.

(** C2 (as amended): adding a Molecule whose name is not a key of the
    registry raises KeyError, the lookup failure of the dictionary, built
    with the missing name, and leaves the registry, and the whole state,
    as it was. *)
Theorem add_molecule_unknown_type_raises_KeyError (st : state)
  (m : Molecule) :
  od_mem (_molecule_types (self st)) (molecule_name m) = false ->
  exists e,
    fst (add_molecule m st) = Raised e /\
    exn_class e = "KeyError" /\
    exn_arg e = molecule_name m /\
    _molecule_types (self (snd (add_molecule m st))) =
      _molecule_types (self st) /\
    snd (add_molecule m st) = st.
Proof.
  intro Hmem. unfold od_mem in Hmem.
  destruct (od_get (_molecule_types (self st)) (molecule_name m)) eqn:Hget;
    [discriminate|].
  exists (KeyError (molecule_name m)).
  rewrite (add_molecule_unregistered st m Hget). repeat split.
Qed.

(** A molecule of an unregistered type, added to the System of water. *)
Lemma add_molecule_unknown_type_raises_KeyError_witness :
  exists e,
    fst (add_molecule (mkMolecule "NA" [7]%nat) water_state) = Raised e /\
    exn_class e = "KeyError" /\
    exn_arg e = "NA" /\
    _molecule_types
      (self (snd (add_molecule (mkMolecule "NA" [7]%nat) water_state))) =
      _molecule_types (self water_state) /\
    snd (add_molecule (mkMolecule "NA" [7]%nat) water_state) = water_state.
Proof.
  apply (add_molecule_unknown_type_raises_KeyError
           water_state (mkMolecule "NA" [7]%nat)).
  reflexivity.
Defined.

(** C2 as it is written does not hold: the exception that is raised is
    not of a class UnknownMoleculeType. *)
Lemma add_molecule_not_UnknownMoleculeType :
  ~ (forall (st : state) (m : Molecule),
        od_mem (_molecule_types (self st)) (molecule_name m) = false ->
        exists e,
          fst (add_molecule m st) = Raised e /\
          exn_class e = "UnknownMoleculeType" /\
          _molecule_types (self (snd (add_molecule m st))) =
            _molecule_types (self st)).
Proof.
  intro H.
  destruct (H water_state (mkMolecule "NA" [7]%nat) eq_refl)
    as [e [Hraised [Hclass _]]].
  cbv in Hraised. injection Hraised as <-. discriminate Hclass.
Qed.

(** ** The bond graph *)

Lemma same_edge_norm (e f : Atom * Atom) :
  same_edge e f = true <-> norm_edge e = norm_edge f.
Proof.
  destruct e as [a b], f as [x y]. unfold same_edge, norm_edge. simpl.
  rewrite orb_true_iff, !andb_true_iff, !Nat.eqb_eq.
  split.
  - intros [[-> ->]|[-> ->]]; f_equal; lia.
  - intro H. injection H as Hmin Hmax. lia.
Qed.

Lemma same_edge_refl (e : Atom * Atom) : same_edge e e = true.
Proof. now apply same_edge_norm. Qed.

Lemma same_edge_congr (e f g : Atom * Atom) :
  same_edge e f = true -> same_edge e g = same_edge f g.
Proof.
  intro Hef. apply same_edge_norm in Hef.
  destruct (same_edge e g) eqn:Heg, (same_edge f g) eqn:Hfg; try reflexivity.
  - apply same_edge_norm in Heg.
    assert (same_edge f g = true) by (apply same_edge_norm; congruence).
    congruence.
  - apply same_edge_norm in Hfg.
    assert (same_edge e g = true) by (apply same_edge_norm; congruence).
    congruence.
Qed.

Lemma same_edge_sym (e f : Atom * Atom) : same_edge e f = same_edge f e.
Proof.
  destruct (same_edge e f) eqn:Hef, (same_edge f e) eqn:Hfe; try reflexivity.
  - apply same_edge_norm in Hef.
    assert (same_edge f e = true) by (apply same_edge_norm; congruence).
    congruence.
  - apply same_edge_norm in Hfe.
    assert (same_edge e f = true) by (apply same_edge_norm; congruence).
    congruence.
Qed.

Lemma count_distinct_le (ps : list (Atom * Atom)) :
  count_distinct ps <= length ps.
Proof.
  induction ps as [|p ps IH]; simpl; [lia|].
  destruct (existsb (same_edge p) ps); lia.
Qed.

Lemma count_distinct_full (ps : list (Atom * Atom)) :
  distinct_pairs ps = true <-> count_distinct ps = length ps.
Proof.
  induction ps as [|p ps IH]; simpl; [tauto|].
  pose proof (count_distinct_le ps) as Hle.
  destruct (existsb (same_edge p) ps); simpl.
  - split; [discriminate|lia].
  - rewrite IH. split; lia.
Qed.

Lemma existsb_same_congr (p q : Atom * Atom) (l : list (Atom * Atom)) :
  same_edge p q = true ->
  existsb (same_edge p) l = existsb (same_edge q) l.
Proof.
  intro Hpq. induction l as [|x l IH]; simpl; [reflexivity|].
  now rewrite IH, (same_edge_congr p q x Hpq).
Qed.

Lemma existsb_same_filter (p q : Atom * Atom) (l : list (Atom * Atom)) :
  same_edge p q = false ->
  existsb (same_edge q) (filter (fun x => negb (same_edge p x)) l) =
  existsb (same_edge q) l.
Proof.
  intro Hpq. induction l as [|x l IH]; simpl; [reflexivity|].
  destruct (same_edge p x) eqn:Hpx; simpl.
  - rewrite IH.
    destruct (same_edge q x) eqn:Hqx; [|reflexivity].
    rewrite (same_edge_congr p x q Hpx), same_edge_sym in Hpq. congruence.
  - now rewrite IH.
Qed.

(** The pairs of a list are those that join the ends of [p], if any,
    and the others. *)
Lemma count_distinct_split (p : Atom * Atom) (l : list (Atom * Atom)) :
  count_distinct l =
  (if existsb (same_edge p) l then 1 else 0)
  + count_distinct (filter (fun q => negb (same_edge p q)) l).
Proof.
  induction l as [|q l IH]; simpl; [reflexivity|].
  destruct (same_edge p q) eqn:Hpq; simpl.
  - rewrite <- (existsb_same_congr p q l Hpq).
    destruct (existsb (same_edge p) l); lia.
  - rewrite (existsb_same_filter p q l Hpq).
    destruct (existsb (same_edge q) l), (existsb (same_edge p) l); lia.
Qed.

Lemma has_edge_snoc (g : Graph) (p q : Atom * Atom) :
  has_edge (mkGraph (edges g ++ [p])) q = has_edge g q || same_edge p q.
Proof.
  unfold has_edge. simpl. rewrite existsb_app. simpl.
  now rewrite orb_false_r, (same_edge_sym q p).
Qed.

Lemma filter_filter {A} (f h : A -> bool) (l : list A) :
  filter f (filter h l) = filter (fun x => h x && f x) l.
Proof.
  induction l as [|x l IH]; simpl; [reflexivity|].
  destruct (h x); simpl; [destruct (f x)|]; now rewrite IH.
Qed.

(** Adding pairs to a graph adds one edge for each unordered pair that
    the graph did not have. *)
Lemma add_edges_from_count (ps : list (Atom * Atom)) (g : Graph) :
  number_of_edges (add_edges_from g ps) =
  number_of_edges g
  + count_distinct (filter (fun p => negb (has_edge g p)) ps).
Proof.
  revert g. induction ps as [|p ps IH]; intro g; simpl.
  - unfold number_of_edges. lia.
  - unfold add_edges_from in *. simpl. unfold add_edge at 2.
    destruct (has_edge g p) eqn:Hp; simpl.
    + apply IH.
    + rewrite IH. unfold number_of_edges at 1. simpl.
      rewrite length_app. simpl.
      rewrite (filter_ext _ (fun q => negb (has_edge g q) && negb (same_edge p q))).
      2:{ intro q. rewrite has_edge_snoc. apply negb_orb. }
      rewrite <- filter_filter.
      set (l := filter (fun q => negb (has_edge g q)) ps).
      rewrite (count_distinct_split p l).
      unfold number_of_edges.
      destruct (existsb (same_edge p) l); lia.
Qed.

Lemma add_edges_from_empty_count (ps : list (Atom * Atom)) :
  number_of_edges (add_edges_from (mkGraph []) ps) = count_distinct ps.
Proof.
  rewrite add_edges_from_count. simpl.
  f_equal. induction ps as [|p ps IH]; simpl; [reflexivity|].
  now rewrite IH.
Qed.

(** Every pair that was handed over is an edge of the graph. *)
Lemma add_edges_from_has (ps : list (Atom * Atom)) (g : Graph)
  (p : Atom * Atom) :
  has_edge g p = true \/ In p ps ->
  has_edge (add_edges_from g ps) p = true.
Proof.
  revert g. induction ps as [|q ps IH]; intros g [Hg|Hin]; simpl.
  - assumption.
  - destruct Hin.
  - apply IH. left. unfold add_edge.
    destruct (has_edge g q); [assumption|].
    rewrite has_edge_snoc, Hg. reflexivity.
  - apply IH. destruct Hin as [->|Hin]; [left|now right].
    unfold add_edge. destruct (has_edge g p) eqn:Hp; [assumption|].
    rewrite has_edge_snoc, same_edge_refl. apply orb_true_r.
Qed.

Lemma list_update_last {A} (l : list A) (x : A) (f : A -> A) :
  list_update (l ++ [x]) (length l) f = l ++ [f x].
Proof.
  induction l as [|y l IH]; simpl; [reflexivity|]. now rewrite IH.
Qed.

Lemma nth_error_last {A} (l : list A) (x : A) :
  nth_error (l ++ [x]) (length l) = Some x.
Proof.
  induction l as [|y l IH]; simpl; [reflexivity|assumption].
Qed.

Lemma bondgraph_first_read (st : state) (ps : list (Atom * Atom))
  (stop : option exn) :
  _bondgraph (self st) = None ->
  connected_pairs (self st) = (ps, stop) ->
  bondgraph st =
  (match stop with
   | None => Ok (length (heap st))
   | Some e => Raised e
   end, bondgraph_built st ps).
Proof.
  intros Hnone Hpairs.
  unfold bondgraph, bind, get_self. rewrite Hnone.
  unfold new_graph, set_self, graph_add_edges_from, ret. simpl.
  change (connected_pairs (with_bondgraph (Some (length (heap st))) (self st)))
    with (connected_pairs (self st)).
  rewrite Hpairs. simpl. rewrite list_update_last.
  unfold bondgraph_built. destruct stop; reflexivity.
Qed.

Lemma bondgraph_cached (st : state) (r : ref) :
  _bondgraph (self st) = Some r -> bondgraph st = (Ok r, st).
Proof.
  intro Hsome. unfold bondgraph, bind, get_self, ret. now rewrite Hsome.
Qed.

(** C3 (as amended): on a System whose bond graph has not been built and
    whose bond templates all resolve to atoms, two reads of [bondgraph]
    return the same graph object, the second without touching the state;
    the graph has one edge for each unordered pair of atoms among the
    pairs of [connected_pairs], so at most as many edges as pairs, and
    exactly as many when no two pairs join the same two atoms. *)
Theorem bondgraph_memoized_edge_count (st : state)
  (pairs : list (Atom * Atom)) :
  _bondgraph (self st) = None ->
  connected_pairs (self st) = (pairs, None) ->
  let st1 := snd (bondgraph st) in
  exists (r : ref) (g : Graph),
    fst (bondgraph st) = Ok r /\
    bondgraph st1 = (Ok r, st1) /\
    deref st1 r = Some g /\
    (forall p, In p pairs -> has_edge g p = true) /\
    number_of_edges g = count_distinct pairs /\
    number_of_edges g <= length pairs /\
    (distinct_pairs pairs = true -> number_of_edges g = length pairs).
Proof.
  intros Hnone Hpairs st1. subst st1.
  rewrite (bondgraph_first_read st Hnone Hpairs). simpl.
  exists (length (heap st)), (add_edges_from (mkGraph []) pairs).
  split; [reflexivity|].
  split; [now apply bondgraph_cached|].
  split; [apply nth_error_last|].
  split; [intros p Hp; apply add_edges_from_has; now right|].
  rewrite add_edges_from_empty_count.
  split; [reflexivity|].
  split; [apply count_distinct_le|].
  apply count_distinct_full.
Qed.

(** The System of water, whose two bonds join different atoms. *)
Lemma bondgraph_memoized_edge_count_witness :
  exists (r : ref) (g : Graph),
    fst (bondgraph water_state) = Ok r /\
    bondgraph (snd (bondgraph water_state)) =
      (Ok r, snd (bondgraph water_state)) /\
    deref (snd (bondgraph water_state)) r = Some g /\
    (forall p, In p [(1, 2); (1, 3)]%nat -> has_edge g p = true) /\
    number_of_edges g = count_distinct [(1, 2); (1, 3)]%nat /\
    number_of_edges g <= length [(1, 2); (1, 3)]%nat /\
    (distinct_pairs [(1, 2); (1, 3)]%nat = true ->
     number_of_edges g = length [(1, 2); (1, 3)]%nat).
Proof.
  apply (bondgraph_memoized_edge_count water_state
           (pairs := [(1, 2); (1, 3)]%nat)); reflexivity.
Defined.

(** C3 as it is written does not hold: two pairs that join the same two
    atoms make one edge. *)
Lemma bondgraph_edge_count_differs :
  ~ (forall st : state,
        exists (r : ref) (g : Graph),
          fst (bondgraph st) = Ok r /\
          fst (bondgraph (snd (bondgraph st))) = Ok r /\
          deref (snd (bondgraph st)) r = Some g /\
          number_of_edges g = length (fst (connected_pairs (self st)))).
Proof.
  intro H.
  destruct (H twice_bonded_state) as [r [g [Hr [_ [Hg Hn]]]]].
  cbv in Hr. injection Hr as <-.
  cbv in Hg. injection Hg as <-.
  cbv in Hn. discriminate Hn.
Qed.

(** ** connected_pairs_per_moleculetype *)

Lemma gen_for_completes {A B} (body : A -> gen B) (l : list A) :
  snd (gen_for l body) = None ->
  fst (gen_for l body) = flat_map (fun x => fst (body x)) l /\
  Forall (fun x => snd (body x) = None) l.
Proof.
  induction l as [|x l IH]; simpl; intro Hstop; [now split|].
  destruct (body x) as [ys [e|]] eqn:Hx; [discriminate|].
  destruct (gen_for l body) as [zs stop]. simpl in *.
  destruct (IH Hstop) as [-> Hall]. split; [reflexivity|].
  constructor; [now rewrite Hx|assumption].
Qed.

(** A bond template that resolves yields one pair. *)
Lemma resolve_bond_completes (m : Molecule) (b : Bond) :
  snd (resolve_bond m b) = None ->
  exists p, resolve_bond m b = ([p], None).
Proof.
  unfold resolve_bond, gen_raise, gen_yield.
  destruct (py_index (molecule_atoms m) (atom1 b - 1)) as [a1|e];
    [|discriminate].
  destruct (py_index (molecule_atoms m) (atom2 b - 1)) as [a2|e];
    [|discriminate].
  intros _. now exists (a1, a2).
Qed.

Lemma gen_for_Forall {A B} (P : B -> Prop) (body : A -> gen B)
  (l : list A) :
  (forall x, Forall P (fst (body x))) ->
  Forall P (fst (gen_for l body)).
Proof.
  intro Hbody. induction l as [|x l IH]; simpl; [constructor|].
  specialize (Hbody x).
  destruct (body x) as [ys [e|]]; [assumption|].
  destruct (gen_for l body) as [zs stop]. simpl in *.
  apply Forall_app. now split.
Qed.

Lemma gen_for_one_each {A B} (body : A -> gen B) (l : list A) :
  (forall x, snd (body x) = None -> length (fst (body x)) = 1%nat) ->
  snd (gen_for l body) = None ->
  length (fst (gen_for l body)) = length l.
Proof.
  intros Hbody Hstop.
  destruct (gen_for_completes body l Hstop) as [-> Hall]. clear Hstop.
  induction Hall as [|x l Hx _ IH]; simpl; [reflexivity|].
  rewrite length_app, IH, (Hbody x Hx). reflexivity.
Qed.

Lemma pairs_of_moleculetype_tagged (mt : MoleculeType) :
  Forall (fun p => pair_moleculetype p = mt)
    (fst (pairs_of_moleculetype mt)).
Proof.
  unfold pairs_of_moleculetype.
  destruct (molecules mt) as [|m ms]; [constructor|].
  apply gen_for_Forall. intro b. unfold gen_map. simpl.
  apply Forall_forall. intros p Hp. apply in_map_iff in Hp.
  destruct Hp as [q [Hq _]]. subst p. reflexivity.
Qed.

(** With a molecule to resolve them against, the bond templates of a
    type yield one pair each, whatever molecules come after the first. *)
Lemma pairs_of_moleculetype_length (mt : MoleculeType) :
  molecules mt <> [] ->
  snd (pairs_of_moleculetype mt) = None ->
  length (fst (pairs_of_moleculetype mt)) = length (bonds mt).
Proof.
  unfold pairs_of_moleculetype.
  destruct (molecules mt) as [|m ms]; [congruence|]. intros _.
  apply gen_for_one_each. intros b Hb. unfold gen_map in *. simpl in *.
  destruct (resolve_bond_completes m b Hb) as [p ->]. reflexivity.
Qed.

Lemma filter_attributed_all (mt : MoleculeType)
  (l : list (typed_atom * typed_atom)) :
  Forall (fun p => pair_moleculetype p = mt) l ->
  filter (attributed_to mt) l = l.
Proof.
  induction 1 as [|p l Hp _ IH]; simpl; [reflexivity|].
  unfold attributed_to at 1.
  destruct (MoleculeType_eq_dec (pair_moleculetype p) mt);
    [now rewrite IH|contradiction].
Qed.

Lemma filter_attributed_none (mt mt' : MoleculeType)
  (l : list (typed_atom * typed_atom)) :
  mt' <> mt ->
  Forall (fun p => pair_moleculetype p = mt') l ->
  filter (attributed_to mt) l = [].
Proof.
  intro Hne. induction 1 as [|p l Hp _ IH]; simpl; [reflexivity|].
  unfold attributed_to at 1.
  destruct (MoleculeType_eq_dec (pair_moleculetype p) mt);
    [congruence|assumption].
Qed.

Lemma filter_attributed_flat_map (mt : MoleculeType)
  (l : list MoleculeType) :
  NoDup l -> In mt l ->
  filter (attributed_to mt)
    (flat_map (fun x => fst (pairs_of_moleculetype x)) l) =
  fst (pairs_of_moleculetype mt).
Proof.
  induction 1 as [|x l Hx Hnd IH]; simpl; intro Hin; [destruct Hin|].
  rewrite filter_app.
  destruct (MoleculeType_eq_dec x mt) as [->|Hne].
  - rewrite (filter_attributed_all (pairs_of_moleculetype_tagged mt)).
    assert (Hrest :
      filter (attributed_to mt)
        (flat_map (fun x => fst (pairs_of_moleculetype x)) l) = []).
    { clear IH Hin Hnd. induction l as [|y l IHl]; simpl; [reflexivity|].
      rewrite filter_app, IHl; [|intro; apply Hx; now right].
      rewrite (@filter_attributed_none mt y);
        [reflexivity| |apply pairs_of_moleculetype_tagged].
      intros ->. apply Hx. now left. }
    rewrite Hrest. apply app_nil_r.
  - rewrite (@filter_attributed_none mt x);
      [|assumption|apply pairs_of_moleculetype_tagged].
    simpl. apply IH. destruct Hin; [contradiction|assumption].
Qed.

Lemma keyed_by_name_values (d : odict MoleculeType) :
  keyed_by_name d -> NoDup (od_values d).
Proof.
  intros [Hnd Hall]. unfold od_keys, od_values in *.
  apply (NoDup_map_inv moleculetype_name). rewrite map_map.
  erewrite map_ext_in; [exact Hnd|].
  intros kv Hkv. rewrite Forall_forall in Hall.
  symmetry. now apply Hall.
Qed.

Lemma od_keys_set {V} (d : odict V) (key : string) (v : V) :
  od_keys (od_set d key v) =
  if od_mem d key then od_keys d else od_keys d ++ [key].
Proof.
  unfold od_mem. induction d as [|[k' v'] d IH]; simpl; [reflexivity|].
  destruct (String.eqb key k'); simpl; [reflexivity|].
  rewrite IH. now destruct (od_get d key).
Qed.

Lemma od_mem_keys {V} (d : odict V) (key : string) :
  od_mem d key = false -> ~ In key (od_keys d).
Proof.
  unfold od_mem. induction d as [|[k' v'] d IH]; simpl; [tauto|].
  destruct (String.eqb_spec key k') as [->|Hne]; [discriminate|].
  intros Hget [Heq|Hin]; [congruence|now apply IH].
Qed.

Lemma od_get_In {V} (d : odict V) (key : string) (v : V) :
  od_get d key = Some v -> In (key, v) d.
Proof.
  induction d as [|[k' v'] d IH]; simpl; [discriminate|].
  destruct (String.eqb_spec key k') as [->|Hne].
  - intros [= ->]. now left.
  - intro Hget. right. now apply IH.
Qed.

Lemma od_set_Forall {V} (P : string * V -> Prop) (d : odict V)
  (key : string) (v : V) :
  (forall key', P (key', v)) -> Forall P d -> Forall P (od_set d key v).
Proof.
  intro Hv. induction 1 as [|[k' v'] d Hkv Hd IH]; simpl.
  - constructor; [apply Hv|constructor].
  - destruct (String.eqb key k'); constructor; auto.
Qed.

Lemma od_set_NoDup {V} (d : odict V) (key : string) (v : V) :
  NoDup (od_keys d) -> NoDup (od_keys (od_set d key v)).
Proof.
  intro Hnd. rewrite od_keys_set.
  destruct (od_mem d key) eqn:Hmem; [assumption|].
  apply NoDup_app; [assumption|repeat constructor; intros []|].
  intros a Ha [<-|[]]. now apply (od_mem_keys d key).
Qed.

Lemma keyed_by_name_empty : keyed_by_name [].
Proof. split; constructor. Qed.

(** Filing a molecule type under a name that is its own keeps every
    molecule type under its own name. *)
Lemma od_set_keyed (d : odict MoleculeType) (key : string)
  (mt : MoleculeType) :
  key = moleculetype_name mt ->
  keyed_by_name d -> keyed_by_name (od_set d key mt).
Proof.
  intros Hkey [Hnd Hall]. split; [now apply od_set_NoDup|].
  induction Hall as [|[k' v'] d Hkv Hd IH]; simpl.
  - constructor; [assumption|constructor].
  - inversion Hnd as [|? ? _ Hnd']; subst.
    destruct (String.eqb_spec (moleculetype_name mt) k') as [<-|Hne];
      constructor; auto.
Qed.

(** Both ways of changing the registry keep it keyed by name. *)
Lemma add_molecule_type_keyed (mt : MoleculeType) (st : state) :
  keyed_by_name (molecule_types (self st)) ->
  keyed_by_name (molecule_types (self (snd (add_molecule_type mt st)))).
Proof.
  intro Hk. unfold add_molecule_type, bind, get_self, set_self. simpl.
  now apply od_set_keyed.
Qed.

Lemma add_molecule_keyed (m : Molecule) (st : state) :
  keyed_by_name (molecule_types (self st)) ->
  keyed_by_name (molecule_types (self (snd (add_molecule m st)))).
Proof.
  intro Hk. unfold add_molecule, bind, get_self, set_self, raise. simpl.
  destruct (od_get (_molecule_types (self st)) (molecule_name m))
    as [mt|] eqn:Hget; simpl; [|assumption].
  apply od_set_keyed; [|assumption].
  apply od_get_In in Hget. destruct Hk as [_ Hall].
  rewrite Forall_forall in Hall. exact (Hall _ Hget).
Qed.

(** C4 (as amended): in a System whose molecule types are filed under
    their own names and whose generator runs to its end, a registered
    molecule type with at least one Molecule accounts for exactly
    [len(mt.bonds)] of the pairs of [connected_pairs_per_moleculetype],
    whatever the number of its Molecules. *)
Theorem connected_pairs_per_moleculetype_count (s : System)
  (mt : MoleculeType) :
  keyed_by_name (molecule_types s) ->
  In mt (od_values (molecule_types s)) ->
  molecules mt <> [] ->
  snd (connected_pairs_per_moleculetype s) = None ->
  length (pairs_attributed_to mt s) = length (bonds mt).
Proof.
  intros Hk Hin Hmol Hstop.
  unfold pairs_attributed_to, connected_pairs_per_moleculetype in *.
  destruct (gen_for_completes _ _ Hstop) as [-> Hall].
  rewrite filter_attributed_flat_map;
    [|now apply keyed_by_name_values|assumption].
  apply pairs_of_moleculetype_length; [assumption|].
  rewrite Forall_forall in Hall. now apply Hall.
Qed.

Lemma connected_pairs_per_moleculetype_count_witness :
  length (pairs_attributed_to water3 water3_system) = length (bonds water3).
Proof.
  apply (@connected_pairs_per_moleculetype_count water3_system water3).
  - split; [repeat constructor; simpl; tauto|repeat constructor].
  - simpl. left. reflexivity.
  - discriminate.
  - reflexivity.
Defined.

(** C4 as it is written does not hold: a molecule type with no Molecule
    yields no pair, however many bond templates it has. *)
Lemma connected_pairs_per_moleculetype_needs_a_molecule :
  ~ (forall (s : System) (mt : MoleculeType),
        In mt (od_values (molecule_types s)) ->
        length (pairs_attributed_to mt s) = length (bonds mt)).
Proof.
  intro H.
  specialize (H unpopulated_system unpopulated (or_introl eq_refl)).
  discriminate H.
Qed.

(** ** Grouping of energy terms *)

Section OrderedDictFacts.
Variable V : Type.
Implicit Types (d : odict V) (key : string) (v : V).

Lemma od_get_set_same d key v : od_get (od_set d key v) key = Some v.
Proof.
  induction d as [|[k' v'] d IH]; simpl.
  - now rewrite String.eqb_refl.
  - destruct (String.eqb key k') eqn:E; simpl; now rewrite E.
Qed.

Lemma od_get_set_other d key key' v :
  key' <> key -> od_get (od_set d key v) key' = od_get d key'.
Proof.
  intro Hne. induction d as [|[k' v'] d IH]; simpl.
  - destruct (String.eqb_spec key' key); [contradiction|reflexivity].
  - destruct (String.eqb_spec key k') as [->|Hk]; simpl.
    + destruct (String.eqb_spec key' k'); [contradiction|reflexivity].
    + now rewrite IH.
Qed.

Lemma od_get_del_other d key key' :
  key' <> key -> od_get (od_del d key) key' = od_get d key'.
Proof.
  intro Hne. induction d as [|[k' v'] d IH]; simpl; [reflexivity|].
  destruct (String.eqb_spec key k') as [->|Hk]; simpl.
  - destruct (String.eqb_spec key' k'); [contradiction|reflexivity].
  - now rewrite IH.
Qed.

Lemma od_get_absent d key : ~ In key (od_keys d) -> od_get d key = None.
Proof.
  induction d as [|[k' v'] d IH]; simpl; [reflexivity|].
  intro Hnin. destruct (String.eqb_spec key k') as [->|Hk]; [tauto|].
  apply IH. tauto.
Qed.

Lemma od_keys_del_incl d key key' :
  In key' (od_keys (od_del d key)) -> In key' (od_keys d).
Proof.
  induction d as [|[k' v'] d IH]; simpl; [tauto|].
  destruct (String.eqb key k'); simpl; tauto.
Qed.

Lemma od_del_NoDup d key : NoDup (od_keys d) -> NoDup (od_keys (od_del d key)).
Proof.
  induction d as [|[k' v'] d IH]; simpl; [trivial|].
  intro Hnd. inversion Hnd as [|? ? Hnin Hnd']; subst.
  destruct (String.eqb key k'); [assumption|]. simpl.
  constructor; [|now apply IH].
  intro Hin. apply Hnin. eapply od_keys_del_incl. exact Hin.
Qed.

(** In a dictionary, where no key is bound twice, a deleted key is
    unbound. *)
Lemma od_get_del_same d key :
  NoDup (od_keys d) -> od_get (od_del d key) key = None.
Proof.
  induction d as [|[k' v'] d IH]; simpl; [reflexivity|].
  intro Hnd. inversion Hnd as [|? ? Hnin Hnd']; subst.
  destruct (String.eqb_spec key k') as [->|Hk]; simpl.
  - now apply od_get_absent.
  - destruct (String.eqb_spec key k'); [contradiction|]. now apply IH.
Qed.

Lemma od_of_zip_NoDup (ks : list string) (vs : list V) d :
  NoDup (od_keys d) -> NoDup (od_keys (od_of_zip ks vs d)).
Proof.
  revert vs d. induction ks as [|key ks IH]; intros [|v vs] d Hnd; simpl;
    try assumption.
  apply IH. now apply od_set_NoDup.
Qed.
End OrderedDictFacts.

Lemma sum_from_cons (d : odict energy) (g : string) (groups : list string)
  (total : energy) :
  sum_from d (g :: groups) total =
  sum_from d groups
    match od_get d g with
    | Some term => (total + term)%float
    | None => total
    end.
Proof. reflexivity. Qed.

Lemma sum_from_ext (groups : list string) (d d' : odict energy)
  (total : energy) :
  (forall g, In g groups -> od_get d g = od_get d' g) ->
  sum_from d groups total = sum_from d' groups total.
Proof.
  unfold sum_from. revert total.
  induction groups as [|g groups IH]; intros total Hext; simpl;
    [reflexivity|].
  rewrite (Hext g (or_introl eq_refl)).
  apply IH. intros h Hh. apply Hext. now right.
Qed.

Lemma mentions_In (l : list string) (key : string) :
  mentions l key = true <-> In key l.
Proof.
  unfold mentions. rewrite existsb_exists. split.
  - intros [x [Hin Heq]]. apply String.eqb_eq in Heq. now subst.
  - intro Hin. exists key. split; [assumption|apply String.eqb_refl].
Qed.

Lemma discard_get (us : list string) (d : odict energy) (key : string) :
  NoDup (od_keys d) ->
  od_get
    (fold_left (fun d group => if od_mem d group then od_del d group else d)
       us d) key =
  if mentions us key then None else od_get d key.
Proof.
  revert d. induction us as [|u us IH]; intros d Hnd; simpl; [reflexivity|].
  rewrite IH.
  2:{ destruct (od_mem d u); [now apply od_del_NoDup|assumption]. }
  destruct (mentions us key); [now rewrite orb_true_r|].
  rewrite orb_false_r.
  destruct (String.eqb_spec key u) as [->|Hne].
  - unfold od_mem. destruct (od_get d u) eqn:Hget;
      [now apply od_get_del_same|assumption].
  - destruct (od_mem d u); [now apply od_get_del_other|reflexivity].
Qed.

Lemma sum_groups_total (name : string) (groups : list string) :
  mentions groups name = false ->
  forall (d : odict energy) (total : energy),
    od_get d name = Some total ->
    exists d',
      sum_groups name groups d = Ok d' /\
      od_get d' name = Some (sum_from d groups total) /\
      (forall key, key <> name -> od_get d' key = od_get d key).
Proof.
  induction groups as [|g groups IH]; intros Hname d total Hget;
    cbn [sum_groups].
  - now exists d.
  - simpl in Hname. apply orb_false_iff in Hname. destruct Hname as [Hg Hrest].
    apply String.eqb_neq in Hg.
    unfold od_mem, add_into, od_item. rewrite Hget.
    destruct (od_get d g) as [term|] eqn:Hterm.
    + destruct (IH Hrest (od_set d name (total + term)%float)
                  (total + term)%float (od_get_set_same _ _ _))
        as [d' [Hrun [Htotal Hothers]]].
      exists d'. split; [assumption|]. split.
      * rewrite Htotal, sum_from_cons, Hterm.
        f_equal. apply sum_from_ext. intros h Hh.
        apply od_get_set_other. intros ->.
        apply mentions_In in Hh. congruence.
      * intros key Hkey. rewrite Hothers by assumption.
        now apply od_get_set_other.
    + destruct (IH Hrest d total Hget) as [d' [Hrun [Htotal Hothers]]].
      exists d'. now rewrite sum_from_cons, Hterm.
Qed.

Lemma group_into_total (name : string) (groups : list string)
  (d : odict energy) :
  mentions groups name = false ->
  exists d',
    group_into name groups d = Ok d' /\
    od_get d' name = Some (sum_present groups d) /\
    (forall key, key <> name -> od_get d' key = od_get d key).
Proof.
  intro Hname. unfold group_into.
  destruct (sum_groups_total name groups Hname (od_set d name 0%float)
              (od_get_set_same _ _ _)) as [d' [Hrun [Htotal Hothers]]].
  exists d'. split; [assumption|]. split.
  - rewrite Htotal. f_equal. apply sum_from_ext.
    intros g Hg. apply od_get_set_other. intros ->.
    apply mentions_In in Hg. congruence.
  - intros key Hkey. rewrite Hothers by assumption.
    now apply od_get_set_other.
Qed.

Lemma sum_present_absent (groups : list string) (d : odict energy) :
  (forall g, In g groups -> od_get d g = None) ->
  sum_present groups d = 0%float.
Proof.
  unfold sum_present. generalize 0%float as total.
  induction groups as [|g groups IH]; intros total Habs; [reflexivity|].
  rewrite sum_from_cons, (Habs g (or_introl eq_refl)).
  apply IH. intros h Hh. apply Habs. now right.
Qed.

(** Splits a membership in a list that is written out into its cases. *)
Ltac each_member H :=
  simpl in H;
  repeat match type of H with
         | _ \/ _ => destruct H as [<-|H]
         end;
  try contradiction.

(** C5: on the terms LJ (SR) = 10, Coulomb (SR) = -20 and Kinetic En. = 5
    the grouping returns a mapping without Kinetic En., with Dispersive =
    10, Electrostatic = -20, Non-bonded = -10 and All dihedrals = 0; and on
    every input it returns normally, each category being the sum of those
    of its terms that the input has (0 when it has none), Non-bonded the
    sum of Electrostatic and Dispersive, every ignored term gone and every
    other term kept. *)
Theorem group_energy_terms_categories :
  (exists e_out,
      _group_energy_terms example_types example_values "energy.xvg" =
        Ok (e_out, "energy.xvg") /\
      od_get e_out "Kinetic En." = None /\
      od_get e_out "Dispersive" = Some 10%float /\
      od_get e_out "Electrostatic" = Some (-20)%float /\
      od_get e_out "Non-bonded" = Some (-10)%float /\
      od_get e_out "All dihedrals" = Some 0%float) /\
  (forall (energy_types : list string) (energy_values : list energy)
          (ener_xvg : string),
      let input := od_of_zip energy_types energy_values [] in
      exists e_out,
        _group_energy_terms energy_types energy_values ener_xvg =
          Ok (e_out, ener_xvg) /\
        od_get e_out "Dispersive" = Some (sum_present dispersive input) /\
        od_get e_out "Electrostatic" =
          Some (sum_present electrostatic input) /\
        od_get e_out "All dihedrals" =
          Some (sum_present all_dihedrals input) /\
        od_get e_out "Non-bonded" =
          Some (sum_present electrostatic input
                + sum_present dispersive input)%float /\
        (forall groups,
            (forall g, In g groups -> od_get input g = None) ->
            sum_present groups input = 0%float) /\
        (forall key, In key unwanted -> od_get e_out key = None) /\
        (forall key,
            ~ In key unwanted -> ~ In key category_names ->
            od_get e_out key = od_get input key)).
Proof.
  split.
  - exists [("LJ (SR)", 10%float); ("Coulomb (SR)", (-20)%float);
            ("Dispersive", 10%float); ("Electrostatic", (-20)%float);
            ("Non-bonded", (-10)%float); ("All dihedrals", 0%float)].
    repeat split.
  - intros energy_types energy_values ener_xvg input.
    assert (Hnd : NoDup (od_keys input))
      by (apply od_of_zip_NoDup; constructor).
    assert (Hdisc : forall key,
               od_get (discard_unwanted input) key =
               if mentions unwanted key then None else od_get input key)
      by (intro key; now apply discard_get).
    unfold _group_energy_terms. fold input.
    destruct (group_into_total "Dispersive" dispersive
                (discard_unwanted input) eq_refl) as [d1 [R1 [T1 O1]]].
    rewrite R1. cbn [rbind].
    destruct (group_into_total "Electrostatic" electrostatic d1 eq_refl)
      as [d2 [R2 [T2 O2]]].
    rewrite R2. cbn [rbind].
    unfold od_item at 1. rewrite T2. cbn [rbind].
    unfold od_item at 1. rewrite (O2 "Dispersive") by discriminate.
    rewrite T1. cbn [rbind].
    remember (od_set d2 "Non-bonded" _) as d3 eqn:Hd3.
    destruct (group_into_total "All dihedrals" all_dihedrals d3 eq_refl)
      as [d4 [R4 [T4 O4]]].
    rewrite R4. cbn [rbind].
    assert (O3 : forall key, key <> "Non-bonded" ->
                             od_get d3 key = od_get d2 key)
      by (intros key Hkey; subst d3; now apply od_get_set_other).
    assert (S1 : sum_present dispersive (discard_unwanted input) =
                 sum_present dispersive input).
    { apply sum_from_ext. intros g Hg. rewrite Hdisc.
      each_member Hg; reflexivity. }
    assert (S2 : sum_present electrostatic d1 =
                 sum_present electrostatic input).
    { apply sum_from_ext. intros g Hg.
      each_member Hg; (rewrite O1 by discriminate); rewrite Hdisc;
        reflexivity. }
    assert (S4 : sum_present all_dihedrals d3 =
                 sum_present all_dihedrals input).
    { apply sum_from_ext. intros g Hg.
      each_member Hg;
        (rewrite O3 by discriminate); (rewrite O2 by discriminate);
        (rewrite O1 by discriminate); rewrite Hdisc; reflexivity. }
    rewrite S1 in *. rewrite S2 in *. rewrite S4 in *.
    exists d4. split; [reflexivity|].
    split.
    { rewrite O4, O3, O2 by discriminate. exact T1. }
    split.
    { rewrite O4, O3 by discriminate. exact T2. }
    split; [exact T4|].
    split.
    { rewrite O4 by discriminate. subst d3. apply od_get_set_same. }
    split; [intros groups; apply sum_present_absent|].
    assert (Hrest : forall key,
               ~ In key category_names ->
               od_get d4 key = od_get (discard_unwanted input) key).
    { intros key Hcat.
      rewrite O4, O3, O2, O1; [reflexivity|..];
        intros ->; apply Hcat; simpl; tauto. }
    split.
    + intros key Hkey. rewrite Hrest.
      * rewrite Hdisc. apply mentions_In in Hkey. now rewrite Hkey.
      * intro Hcat. apply mentions_In in Hkey.
        each_member Hcat; discriminate Hkey.
    + intros key Hkey Hcat. rewrite (Hrest key Hcat), Hdisc.
      destruct (mentions unwanted key) eqn:Hm; [|reflexivity].
      apply mentions_In in Hm. contradiction.
Qed.

(** ** CosineSquaredAngleType *)

Lemma is_compatible_dimension (u v : Unit) :
  is_compatible u v = true <-> dimension_of u = dimension_of v.
Proof.
  unfold is_compatible.
  destruct (dimension_of u), (dimension_of v); simpl;
    split; intro H; try reflexivity; discriminate H.
Qed.

Lemma CosineSquaredAngleType_init_checks (b1 b2 b3 : string)
  (theta0 k0 : Quantity float) (c0 : bool) :
  CosineSquaredAngleType_init b1 b2 b3 theta0 k0 c0 =
  if is_compatible (unit_ theta0) degrees
     && is_compatible (unit_ k0) kilojoules_per_mole
  then Ok (mkCosineSquaredAngleType b1 b2 b3 c0 theta0 k0)
  else Raised (UnitMismatch "incompatible units").
Proof.
  unfold CosineSquaredAngleType_init. simpl.
  destruct (is_compatible (unit_ theta0) degrees); simpl; [|reflexivity].
  destruct (is_compatible (unit_ k0) kilojoules_per_mole); reflexivity.
Qed.

(** C6: when theta is not an angle or k is not an energy per mole, the
    construction raises UnitMismatch and returns no object. *)
Theorem CosineSquaredAngleType_init_wrong_dimension (b1 b2 b3 : string)
  (theta0 k0 : Quantity float) (c0 : bool) :
  dimension_of (unit_ theta0) <> dimension_of degrees \/
  dimension_of (unit_ k0) <> dimension_of kilojoules_per_mole ->
  (exists e,
      CosineSquaredAngleType_init b1 b2 b3 theta0 k0 c0 = Raised e /\
      exn_class e = "UnitMismatch") /\
  (forall obj, CosineSquaredAngleType_init b1 b2 b3 theta0 k0 c0 <> Ok obj).
Proof.
  intro Hwrong. rewrite CosineSquaredAngleType_init_checks.
  assert (Hcheck : is_compatible (unit_ theta0) degrees
                   && is_compatible (unit_ k0) kilojoules_per_mole = false).
  { apply andb_false_iff.
    destruct Hwrong as [H|H]; [left|right];
      apply not_true_is_false; intro Hc;
      apply is_compatible_dimension in Hc; contradiction. }
  rewrite Hcheck. split.
  - now exists (UnitMismatch "incompatible units").
  - discriminate.
Qed.

(** An equilibrium angle given as a length. *)
Lemma CosineSquaredAngleType_init_wrong_dimension_witness :
  (exists e,
      CosineSquaredAngleType_init "CT" "CT" "HC"
        (mkQuantity 109.5%float nanometers) default_k false = Raised e /\
      exn_class e = "UnitMismatch") /\
  (forall obj,
      CosineSquaredAngleType_init "CT" "CT" "HC"
        (mkQuantity 109.5%float nanometers) default_k false <> Ok obj).
Proof.
  apply (CosineSquaredAngleType_init_wrong_dimension "CT" "CT" "HC"
           (mkQuantity 109.5%float nanometers) default_k false).
  left. simpl. discriminate.
Defined.

(** C7: with any three labels, theta an angle (in degrees, say) and k an
    energy per mole, the construction returns an object whose [theta] and
    [k] are the values supplied, and whose labels and [c] are those
    supplied. *)
Theorem CosineSquaredAngleType_init_round_trip (b1 b2 b3 : string)
  (theta0 k0 : Quantity float) (c0 : bool) :
  dimension_of (unit_ theta0) = dimension_of degrees ->
  dimension_of (unit_ k0) = dimension_of kilojoules_per_mole ->
  exists obj,
    CosineSquaredAngleType_init b1 b2 b3 theta0 k0 c0 = Ok obj /\
    theta obj = theta0 /\
    k obj = k0 /\
    (bondingtype1 obj, bondingtype2 obj, bondingtype3 obj) = (b1, b2, b3) /\
    c obj = c0.
Proof.
  intros Htheta Hk. rewrite CosineSquaredAngleType_init_checks.
  apply is_compatible_dimension in Htheta, Hk. rewrite Htheta, Hk. simpl.
  eexists. repeat split.
Qed.

(** The tetrahedral angle in degrees with a force constant in kilojoules
    per mole. *)
Lemma CosineSquaredAngleType_init_round_trip_witness :
  exists obj,
    CosineSquaredAngleType_init "CT" "CT" "HC"
      (mkQuantity 109.5%float degrees)
      (mkQuantity 292.5%float kilojoules_per_mole) false = Ok obj /\
    theta obj = mkQuantity 109.5%float degrees /\
    k obj = mkQuantity 292.5%float kilojoules_per_mole /\
    (bondingtype1 obj, bondingtype2 obj, bondingtype3 obj) =
      ("CT", "CT", "HC") /\
    c obj = false.
Proof.
  apply (CosineSquaredAngleType_init_round_trip "CT" "CT" "HC"
           (mkQuantity 109.5%float degrees)
           (mkQuantity 292.5%float kilojoules_per_mole) false);
    reflexivity.
Defined.

(** ** The choice of the GROMACS binaries *)

Lemma py_list_of_str_length (s : string) :
  length (py_list_of_str s) = String.length s.
Proof.
  unfold py_list_of_str. rewrite length_map.
  induction s as [|ch s IH]; simpl; [reflexivity|]. now rewrite IH.
Qed.

Lemma py_list_of_str_items (s : string) :
  Forall (fun item => String.length item = 1%nat) (py_list_of_str s).
Proof.
  unfold py_list_of_str. apply Forall_forall. intros item Hin.
  apply in_map_iff in Hin. now destruct Hin as [ch [<- _]].
Qed.

Lemma string_length_append (a b : string) :
  String.length (a ++ b) = (String.length a + String.length b)%nat.
Proof.
  induction a as [|ch a IH]; simpl; [reflexivity|]. now rewrite IH.
Qed.

Lemma os_path_join_length (a b : string) :
  String.length b <= String.length (os_path_join a b).
Proof.
  unfold os_path_join.
  destruct (prefix "/" b); [lia|].
  destruct (String.eqb a ""); [lia|].
  destruct (String.eqb _ "/"); rewrite !string_length_append; lia.
Qed.

(** A list of the characters of a joined path is not the list that holds
    the path. *)
Lemma py_list_of_str_not_path (path name name' : string) :
  2 <= String.length name ->
  py_list_of_str (os_path_join path name) <> [os_path_join path name'].
Proof.
  intros Hname Heq.
  pose proof (py_list_of_str_length (os_path_join path name)) as Hlen.
  rewrite Heq in Hlen. simpl in Hlen.
  pose proof (os_path_join_length path name). lia.
Qed.

Lemma binaries_for_path (path s : string) :
  binaries_for (Some path) s = Ok (character_lists path s).
Proof. reflexivity. Qed.

Lemma gromacs_energies_binaries_returns
  (which : list string -> result bool) (path : string) (b : binaries) :
  gromacs_energies_binaries which (Some path) = Ok b ->
  b = character_lists path "_d" \/ b = character_lists path "".
Proof.
  unfold gromacs_energies_binaries. cbn [find_loop].
  rewrite !binaries_for_path.
  destruct (usable which (character_lists path "_d")) as [[|]|e];
    cbn [String.eqb Ascii.eqb Bool.eqb].
  - intros [= <-]. now left.
  - destruct (usable which (character_lists path "")) as [[|]|e'];
      cbn [String.eqb]; [intros [= <-]; now right|discriminate..].
  - discriminate.
Qed.

Lemma usable_raises (which : list string -> result bool) (e : exn)
  (b : binaries) :
  (forall program, which program = Raised e) -> usable which b = Raised e.
Proof. intro Hwhich. unfold usable. now rewrite Hwhich. Qed.

(** C9 (the code departs from it): the binaries with the suffix _d should
    be selected whenever they are usable, and an error raised only when
    neither set is.  Each of the three names is bound to [list(...)] of
    the joined path, the list of its characters.  With every program
    installed under /usr/bin and a [which] that finds whatever it is asked
    for, the three names are bound to lists of single characters (those of
    the paths without suffix when [which] finds only these, and IOError
    when it finds nothing) and the command of the first stage has the
    program "/"; whatever [which]
    answers, a name is never bound to the list that holds the path of a
    binary; when [which] raises on the list it is handed, the call raises
    that exception whatever is installed; and with [gro_path] left at its
    default the call raises before it looks for anything. *)
Theorem gromacs_energies_binaries_are_character_lists :
  gromacs_energies_binaries which_finds_all (Some "/usr/bin") =
    Ok (mkBinaries
          ["/"; "u"; "s"; "r"; "/"; "b"; "i"; "n"; "/";
           "g"; "r"; "o"; "m"; "p"; "p"; "_"; "d"]
          ["/"; "u"; "s"; "r"; "/"; "b"; "i"; "n"; "/";
           "m"; "d"; "r"; "u"; "n"; "_"; "d"]
          ["/"; "u"; "s"; "r"; "/"; "b"; "i"; "n"; "/";
           "g"; "_"; "e"; "n"; "e"; "r"; "g"; "y"; "_"; "d"]) /\
  gromacs_energies_binaries which_finds_single (Some "/usr/bin") =
    Ok (mkBinaries
          ["/"; "u"; "s"; "r"; "/"; "b"; "i"; "n"; "/";
           "g"; "r"; "o"; "m"; "p"; "p"]
          ["/"; "u"; "s"; "r"; "/"; "b"; "i"; "n"; "/";
           "m"; "d"; "r"; "u"; "n"]
          ["/"; "u"; "s"; "r"; "/"; "b"; "i"; "n"; "/";
           "g"; "_"; "e"; "n"; "e"; "r"; "g"; "y"]) /\
  gromacs_energies_binaries which_finds_none (Some "/usr/bin") =
    Raised (IOError "Unable to find GROMACS executables.") /\
  (exists rest,
      grompp_command which_finds_all (Some "/usr/bin")
        "topol.top" "conf.gro" "/work/grompp.mdp" "/work/topol.tpr"
        "/work/mdout.mdp" = Ok ("/" :: rest)) /\
  (forall (which : list string -> result bool) (path : string)
          (b : binaries),
      gromacs_energies_binaries which (Some path) = Ok b ->
      Forall (fun item => String.length item = 1%nat)
        (grompp_bin b ++ mdrun_bin b ++ genergy_bin b) /\
      (forall s, grompp_bin b <> [os_path_join path ("grompp" ++ s)]) /\
      (forall s, mdrun_bin b <> [os_path_join path ("mdrun" ++ s)]) /\
      (forall s, genergy_bin b <> [os_path_join path ("g_energy" ++ s)])) /\
  (forall (which : list string -> result bool) (e : exn) (path : string),
      (forall program, which program = Raised e) ->
      gromacs_energies_binaries which (Some path) = Raised e) /\
  (forall which : list string -> result bool,
      exists e, gromacs_energies_binaries which None = Raised e).
Proof.
  split; [reflexivity|].
  split; [reflexivity|].
  split; [reflexivity|].
  split; [eexists; reflexivity|].
  split; [|split].
  - intros which path b Hb.
    apply gromacs_energies_binaries_returns in Hb.
    destruct Hb as [-> | ->]; cbn [character_lists grompp_bin mdrun_bin
                                 genergy_bin];
      (split; [rewrite !Forall_app; repeat split;
               apply py_list_of_str_items|]);
      repeat split; intro s; apply py_list_of_str_not_path;
      simpl; lia.
  - intros which e path Hwhich.
    unfold gromacs_energies_binaries. cbn [find_loop].
    rewrite binaries_for_path, (usable_raises _ _ Hwhich). reflexivity.
  - intro which. eexists. reflexivity.
Qed.

(** * Further properties of the System *)

(** ** The registry of molecule types *)

Lemma add_molecule_type_run (mt : MoleculeType) (st : state) :
  add_molecule_type mt st =
  (Ok tt,
   mkState
     (with_molecule_types
        (od_set (_molecule_types (self st)) (moleculetype_name mt) mt)
        (self st))
     (heap st) (log st) (atom_traversals st)).
Proof. reflexivity. Qed.

(** X1: [add_molecule_type] never raises; afterwards the name of the type
    is bound to it, every other name is bound as before, a name that was
    bound keeps its place and a new one goes last, and the box vector and
    the three caches are untouched. *)
Theorem add_molecule_type_registers (mt : MoleculeType) (st : state) :
  let st' := snd (add_molecule_type mt st) in
  let d := molecule_types (self st) in
  let d' := molecule_types (self st') in
  fst (add_molecule_type mt st) = Ok tt /\
  od_get d' (moleculetype_name mt) = Some mt /\
  (forall key, key <> moleculetype_name mt -> od_get d' key = od_get d key) /\
  od_keys d' =
    (if od_mem d (moleculetype_name mt) then od_keys d
     else od_keys d ++ [moleculetype_name mt]) /\
  _box_vector (self st') = _box_vector (self st) /\
  _n_atoms (self st') = _n_atoms (self st) /\
  _bondgraph (self st') = _bondgraph (self st) /\
  heap st' = heap st.
Proof.
  rewrite add_molecule_type_run. cbn [fst snd self heap].
  unfold molecule_types, with_molecule_types. cbn.
  split; [reflexivity|].
  split; [apply od_get_set_same|].
  split; [intros key Hkey; now apply od_get_set_other|].
  split; [apply od_keys_set|].
  repeat split.
Qed.

Lemma register_all_cons (mt : MoleculeType) (mts : list MoleculeType)
  (st : state) :
  register_all (mt :: mts) st =
  register_all mts (snd (add_molecule_type mt st)).
Proof. reflexivity. Qed.

Lemma register_all_keyed (mts : list MoleculeType) (st : state) :
  keyed_by_name (molecule_types (self st)) ->
  keyed_by_name (molecule_types (self (register_all mts st))).
Proof.
  revert st. induction mts as [|mt mts IH]; intros st Hk; [assumption|].
  rewrite register_all_cons. apply IH. now apply add_molecule_type_keyed.
Qed.

Lemma od_set_values_incl {V} (d : odict V) (key : string) (v x : V) :
  In x (od_values (od_set d key v)) -> x = v \/ In x (od_values d).
Proof.
  unfold od_values. induction d as [|[k' v'] d IH]; simpl.
  - intros [<-|[]]. now left.
  - destruct (String.eqb key k'); simpl.
    + intros [<-|Hin]; [now left|right; now right].
    + intros [<-|Hin]; [right; now left|].
      destruct (IH Hin) as [->|H]; [now left|right; now right].
Qed.

Lemma register_all_values (mts : list MoleculeType) (st : state)
  (x : MoleculeType) :
  In x (od_values (molecule_types (self (register_all mts st)))) ->
  In x mts \/ In x (od_values (molecule_types (self st))).
Proof.
  revert st. induction mts as [|mt mts IH]; intros st Hin; [now right|].
  rewrite register_all_cons in Hin.
  destruct (IH _ Hin) as [H|H]; [left; now right|].
  rewrite add_molecule_type_run in H. cbn in H.
  apply od_set_values_incl in H. destruct H as [->|H];
    [left; now left|now right].
Qed.

Lemma register_all_bound (mts : list MoleculeType) (st : state)
  (key : string) :
  od_mem (molecule_types (self st)) key = true \/
  In key (map moleculetype_name mts) ->
  od_mem (molecule_types (self (register_all mts st))) key = true.
Proof.
  revert st. induction mts as [|mt mts IH]; intros st H.
  - destruct H as [H|[]]; assumption.
  - rewrite register_all_cons. apply IH.
    rewrite add_molecule_type_run. cbn. simpl in H.
    unfold molecule_types, od_mem in *.
    destruct (String.eqb_spec key (moleculetype_name mt)) as [->|Hne].
    + left. now rewrite od_get_set_same.
    + rewrite od_get_set_other by assumption.
      destruct H as [H|[H|H]]; [now left|congruence|now right].
Qed.

(** X2: after any sequence of [add_molecule_type] on a new System, no name
    is bound twice, every molecule type is filed under its own name, every
    name of the sequence is bound, and every molecule type in the registry
    is one of the sequence. *)
Theorem registry_after_add_molecule_types (mts : list MoleculeType)
  (name : option string) :
  let d :=
    molecule_types
      (self (register_all mts (initial_state (System_init name)))) in
  keyed_by_name d /\
  (forall mt, In mt mts -> od_mem d (moleculetype_name mt) = true) /\
  (forall mt, In mt (od_values d) -> In mt mts).
Proof.
  intro d. subst d. split; [|split].
  - apply register_all_keyed. apply keyed_by_name_empty.
  - intros mt Hin. apply register_all_bound. right. now apply in_map.
  - intros mt Hin. apply register_all_values in Hin.
    destruct Hin as [H|[]]. assumption.
Qed.

(** ** The caches *)

Lemma n_atoms_run_uncached (st : state) :
  truthy (_n_atoms (self st)) = false ->
  n_atoms st =
  (Ok (Some (Z.of_nat (length (atoms (self st))))),
   mkState
     (with_n_atoms (Some (Z.of_nat (length (atoms (self st))))) (self st))
     (heap st) (log st) (S (atom_traversals st))).
Proof.
  intro Hfalse.
  unfold n_atoms, bind, get_self, ret, count_traversal, set_self.
  now rewrite Hfalse.
Qed.

Lemma n_atoms_run_cached (st : state) :
  truthy (_n_atoms (self st)) = true ->
  n_atoms st = (Ok (_n_atoms (self st)), st).
Proof.
  intro Htrue.
  unfold n_atoms, bind, get_self, ret. now rewrite Htrue.
Qed.

(** X3: two reads of [n_atoms] in a row return the same count, and unless
    that count is 0 the second read leaves the state as it is, with no
    further pass over the atoms. *)
Theorem n_atoms_read_twice (st : state) :
  let st1 := snd (n_atoms st) in
  fst (n_atoms st1) = fst (n_atoms st) /\
  (fst (n_atoms st) <> Ok (Some 0%Z) -> n_atoms st1 = (fst (n_atoms st), st1)).
Proof.
  intro st1. subst st1.
  destruct (truthy (_n_atoms (self st))) eqn:Hst.
  - rewrite (n_atoms_run_cached st Hst). cbn [fst snd].
    rewrite (n_atoms_run_cached st Hst). now split.
  - rewrite (n_atoms_run_uncached st Hst). cbn [fst snd].
    set (count := Z.of_nat (length (atoms (self st)))).
    set (st1 := mkState _ _ _ _).
    destruct (Z.eqb_spec count 0) as [Hzero|Hpos].
    + rewrite n_atoms_run_uncached.
      * cbn [fst]. split; [reflexivity|]. rewrite Hzero. congruence.
      * subst st1. simpl. now rewrite Hzero.
    + rewrite n_atoms_run_cached.
      * now split.
      * subst st1. simpl. now apply Z.eqb_neq in Hpos as ->.
Qed.

(** X4: a count that [n_atoms] holds is not refreshed by
    [add_molecule_type]: the next read returns the count held, whatever
    atoms the new molecule type brings. *)
Theorem n_atoms_stale_after_add_molecule_type (st : state) (n : Z)
  (mt : MoleculeType) :
  _n_atoms (self st) = Some n -> n <> 0%Z ->
  fst (n_atoms (snd (add_molecule_type mt st))) = Ok (Some n).
Proof.
  intros Hn Hnz. rewrite add_molecule_type_run. cbn [snd].
  rewrite n_atoms_run_cached; simpl; rewrite Hn; [reflexivity|].
  simpl. now apply Z.eqb_neq in Hnz as ->.
Qed.

(** An empty System whose count was read from a header as 5, and water
    added to it: three atoms, and a count of 5. *)
Lemma n_atoms_stale_after_add_molecule_type_witness :
  fst (n_atoms
         (snd (add_molecule_type water
                 (snd (set_n_atoms 5 (initial_state (System_init None)))))))
  = Ok (Some 5%Z).
Proof.
  apply (@n_atoms_stale_after_add_molecule_type
           (snd (set_n_atoms 5 (initial_state (System_init None)))) 5%Z water).
  - reflexivity.
  - discriminate.
Defined.

(** X5: a bond graph that has been built is not rebuilt after
    [add_molecule_type]: the next read returns the same object, and the
    store of graph objects is as it was, whatever bonds the new molecule
    type brings. *)
Theorem bondgraph_stale_after_add_molecule_type (st : state) (r : ref)
  (mt : MoleculeType) :
  _bondgraph (self st) = Some r ->
  let st' := snd (add_molecule_type mt st) in
  fst (bondgraph st') = Ok r /\
  heap (snd (bondgraph st')) = heap st.
Proof.
  intros Hr st'. subst st'. rewrite add_molecule_type_run. cbn [snd].
  rewrite (@bondgraph_cached _ r); [now split|exact Hr].
Qed.

(** The graph of water, read once; then a second molecule type is added
    and the graph read again. *)
Lemma bondgraph_stale_after_add_molecule_type_witness :
  let st := snd (bondgraph water_state) in
  let st' := snd (add_molecule_type twice_bonded st) in
  fst (bondgraph st') = Ok 0%nat /\
  heap (snd (bondgraph st')) = heap st.
Proof.
  cbv zeta.
  apply (@bondgraph_stale_after_add_molecule_type
           (snd (bondgraph water_state)) 0%nat twice_bonded).
  reflexivity.
Defined.

(** X6: when a bond template does not resolve, the first read of
    [bondgraph] raises; the graph object had been stored before the pairs
    were added, so a second read returns normally, with a graph that holds
    only the pairs yielded before the failure. *)
Theorem bondgraph_after_failed_read (st : state)
  (pairs : list (Atom * Atom)) (e : exn) :
  _bondgraph (self st) = None ->
  connected_pairs (self st) = (pairs, Some e) ->
  let st1 := snd (bondgraph st) in
  fst (bondgraph st) = Raised e /\
  exists r,
    bondgraph st1 = (Ok r, st1) /\
    deref st1 r = Some (add_edges_from (mkGraph []) pairs).
Proof.
  intros Hnone Hpairs st1. subst st1.
  rewrite (bondgraph_first_read st Hnone Hpairs). cbn [fst snd].
  split; [reflexivity|].
  exists (length (heap st)). split.
  - now apply bondgraph_cached.
  - apply nth_error_last.
Qed.

(** Water with a third bond, to an atom it does not have. *)
Lemma bondgraph_after_failed_read_witness :
  let st :=
    snd (add_molecule_type
           (mkMoleculeType "SOL" [mkMolecule "SOL" [1; 2; 3]%nat]
              [mkBond 1 2; mkBond 1 4; mkBond 1 3])
           (initial_state (System_init None))) in
  let st1 := snd (bondgraph st) in
  fst (bondgraph st) = Raised (IndexError "list index out of range") /\
  exists r,
    bondgraph st1 = (Ok r, st1) /\
    deref st1 r = Some (add_edges_from (mkGraph []) [(1, 2)]%nat).
Proof.
  cbv zeta.
  apply (@bondgraph_after_failed_read
           (snd (add_molecule_type
                   (mkMoleculeType "SOL" [mkMolecule "SOL" [1; 2; 3]%nat]
                      [mkBond 1 2; mkBond 1 4; mkBond 1 3])
                   (initial_state (System_init None))))
           [(1, 2)]%nat (IndexError "list index out of range"));
    reflexivity.
Defined.

(** X7: the setter of [box_vector] never raises and stores [np.array(v)]
    whatever the shape of [v]; the shape decides only whether a record is
    written to the log; the registry and the caches are untouched. *)
Theorem set_box_vector_always_stores (v : boxval) (st : state) :
  let st' := snd (set_box_vector v st) in
  fst (set_box_vector v st) = Ok tt /\
  fst (box_vector st') = Ok (np_array v) /\
  (shape_of v = [3; 3]%nat -> log st' = log st) /\
  (shape_of v <> [3; 3]%nat ->
   log st' = log st ++ ["Box vector with incorrect format"]) /\
  _molecule_types (self st') = _molecule_types (self st) /\
  _n_atoms (self st') = _n_atoms (self st) /\
  _bondgraph (self st') = _bondgraph (self st).
Proof.
  intro st'. subst st'.
  split; [apply set_box_vector_outcome|].
  split.
  { unfold box_vector, bind, get_self, ret.
    now rewrite set_box_vector_stores. }
  rewrite set_box_vector_log.
  pose proof (shape_is_3x3_iff v) as Hshape.
  unfold set_box_vector, bind.
  destruct (shape_is_3x3 v); simpl.
  - repeat split. intro Hne. exfalso. apply Hne. now apply Hshape.
  - repeat split. intro Heq. apply Hshape in Heq. discriminate.
Qed.

(** ** Bond templates and the pairs they yield *)

Lemma py_index_in_range {A} (l : list A) (i : Z) :
  (- Z.of_nat (length l) <= i < Z.of_nat (length l))%Z ->
  exists a,
    py_index l i = Ok a /\
    nth_error l (Z.to_nat (i mod Z.of_nat (length l))) = Some a.
Proof.
  intro Hrange. unfold py_index.
  set (n := Z.of_nat (length l)) in *.
  assert (Hj : ((if (i <? 0)%Z then (i + n)%Z else i) = i mod n)%Z).
  { destruct (Z.ltb_spec i 0).
    - apply Z.mod_unique with (q := (-1)%Z); lia.
    - symmetry. apply Z.mod_small. lia. }
  rewrite Hj.
  assert (Hmod : (0 <= i mod n < n)%Z) by (apply Z.mod_pos_bound; lia).
  destruct (Z.ltb_spec (i mod n) 0) as [|_]; [lia|].
  destruct (Z.leb_spec n (i mod n)) as [|_]; [lia|]. simpl.
  destruct (nth_error l (Z.to_nat (i mod n))) as [a|] eqn:Hnth.
  - now exists a.
  - apply nth_error_None in Hnth. subst n. lia.
Qed.

Lemma py_index_out_of_range {A} (l : list A) (i : Z) :
  ~ (- Z.of_nat (length l) <= i < Z.of_nat (length l))%Z ->
  py_index l i = Raised (IndexError "list index out of range").
Proof.
  intro Hrange. unfold py_index.
  set (n := Z.of_nat (length l)) in *.
  destruct (Z.ltb_spec i 0).
  - destruct (Z.ltb_spec (i + n) 0); [reflexivity|].
    destruct (Z.leb_spec n (i + n)); [reflexivity|lia].
  - destruct (Z.ltb_spec i 0); [lia|].
    destruct (Z.leb_spec n i); [reflexivity|lia].
Qed.

Lemma py_index_In {A} (l : list A) (i : Z) (a : A) :
  py_index l i = Ok a -> In a l.
Proof.
  unfold py_index.
  destruct (_ || _)%bool; [discriminate|].
  destruct (nth_error l _) as [x|] eqn:Hnth; [|discriminate].
  intros [= <-]. eapply nth_error_In. exact Hnth.
Qed.

Lemma position_ok_dec (m : Molecule) (i : Z) :
  {position_ok m i} + {~ position_ok m i}.
Proof.
  unfold position_ok.
  destruct (Z_le_dec (1 - Z.of_nat (length (molecule_atoms m))) i);
    destruct (Z_le_dec i (Z.of_nat (length (molecule_atoms m))));
    [left|right|right|right]; lia.
Qed.

Lemma resolve_bond_in_range (m : Molecule) (b : Bond) :
  position_ok m (atom1 b) /\ position_ok m (atom2 b) ->
  exists a1 a2,
    resolve_bond m b = ([(a1, a2)], None) /\
    atom_at m (atom1 b) = Some a1 /\
    atom_at m (atom2 b) = Some a2.
Proof.
  unfold resolve_bond, atom_at, position_ok, gen_raise, gen_yield.
  intros [H1 H2].
  destruct (@py_index_in_range _ (molecule_atoms m) (atom1 b - 1)%Z)
    as [a1 [-> Hn1]]; [lia|].
  destruct (@py_index_in_range _ (molecule_atoms m) (atom2 b - 1)%Z)
    as [a2 [-> Hn2]]; [lia|].
  now exists a1, a2.
Qed.

Lemma resolve_bond_out_of_range (m : Molecule) (b : Bond) :
  ~ (position_ok m (atom1 b) /\ position_ok m (atom2 b)) ->
  resolve_bond m b = ([], Some (IndexError "list index out of range")).
Proof.
  unfold resolve_bond, gen_raise, gen_yield. intro Hnot.
  destruct (position_ok_dec m (atom1 b)) as [H1|H1].
  - destruct (@py_index_in_range _ (molecule_atoms m) (atom1 b - 1)%Z)
      as [a1 [-> _]]; [unfold position_ok in H1; lia|].
    rewrite py_index_out_of_range; [reflexivity|].
    unfold position_ok in *. lia.
  - rewrite py_index_out_of_range; [reflexivity|].
    unfold position_ok in *. lia.
Qed.

(** X8: a bond template resolves against a molecule of [n] atoms exactly
    when both of its positions lie from [1 - n] to [n]; it then yields one
    pair, a position from 1 to [n] denoting the atom at that place and a
    position from [1 - n] to 0 an atom counted from the end (0 is the last
    atom); otherwise it yields nothing and raises IndexError. *)
Theorem resolve_bond_positions (m : Molecule) (b : Bond) :
  (position_ok m (atom1 b) /\ position_ok m (atom2 b) ->
   exists a1 a2,
     resolve_bond m b = ([(a1, a2)], None) /\
     atom_at m (atom1 b) = Some a1 /\
     atom_at m (atom2 b) = Some a2) /\
  (~ (position_ok m (atom1 b) /\ position_ok m (atom2 b)) ->
   resolve_bond m b =
     ([], Some (IndexError "list index out of range"))).
Proof.
  split; [apply resolve_bond_in_range|apply resolve_bond_out_of_range].
Qed.

Lemma gen_for_In {A B} (body : A -> gen B) (l : list A) (y : B) :
  In y (fst (gen_for l body)) ->
  exists x, In x l /\ In y (fst (body x)).
Proof.
  induction l as [|x l IH]; simpl; [intros []|].
  destruct (body x) as [ys [e|]] eqn:Hx; simpl.
  - intro Hin. exists x. rewrite Hx. split; [now left|assumption].
  - destruct (gen_for l body) as [zs stop]. simpl in *.
    intro Hin. apply in_app_or in Hin. destruct Hin as [Hin|Hin].
    + exists x. rewrite Hx. split; [now left|assumption].
    + destruct (IH Hin) as [x' [Hx' Hy]]. exists x'. split; [now right|assumption].
Qed.

Lemma resolve_bond_In (m : Molecule) (b : Bond) (p : Atom * Atom) :
  In p (fst (resolve_bond m b)) ->
  In (fst p) (molecule_atoms m) /\ In (snd p) (molecule_atoms m).
Proof.
  unfold resolve_bond, gen_raise, gen_yield.
  destruct (py_index (molecule_atoms m) (atom1 b - 1)%Z) as [a1|e] eqn:H1;
    [|intros []].
  destruct (py_index (molecule_atoms m) (atom2 b - 1)%Z) as [a2|e] eqn:H2;
    [|intros []].
  intros [<-|[]]. simpl. split; eapply py_index_In; eassumption.
Qed.

Lemma connected_pairs_origin (s : System) (p : Atom * Atom) :
  In p (fst (connected_pairs s)) ->
  exists mol_type molecule,
    In mol_type (od_values (molecule_types s)) /\
    In molecule (molecules mol_type) /\
    (exists bond, In bond (bonds mol_type) /\
                  In p (fst (resolve_bond molecule bond))) /\
    In (fst p) (molecule_atoms molecule) /\
    In (snd p) (molecule_atoms molecule).
Proof.
  intro Hin. unfold connected_pairs in Hin.
  apply gen_for_In in Hin. destruct Hin as [mol_type [Hmt Hin]].
  apply gen_for_In in Hin. destruct Hin as [molecule [Hmol Hin]].
  apply gen_for_In in Hin. destruct Hin as [bond [Hbond Hin]].
  destruct (resolve_bond_In _ _ _ Hin) as [Ha Hb].
  exists mol_type, molecule. repeat split; try assumption.
  now exists bond.
Qed.

Lemma molecule_atoms_in_atoms (s : System) (mol_type : MoleculeType)
  (molecule : Molecule) (a : Atom) :
  In mol_type (od_values (molecule_types s)) ->
  In molecule (molecules mol_type) ->
  In a (molecule_atoms molecule) ->
  In a (atoms s).
Proof.
  intros Hmt Hmol Ha. unfold atoms.
  apply in_flat_map. exists mol_type. split; [assumption|].
  apply in_flat_map. exists molecule. now split.
Qed.

(** X9: every pair that [connected_pairs] yields, also before a failure,
    joins two atoms of one and the same molecule of a registered molecule
    type, by a bond template of that type; both atoms are among
    [atoms]. *)
Theorem connected_pairs_within_molecule (s : System) (p : Atom * Atom) :
  In p (fst (connected_pairs s)) ->
  (exists mol_type molecule,
      In mol_type (od_values (molecule_types s)) /\
      In molecule (molecules mol_type) /\
      (exists bond, In bond (bonds mol_type) /\
                    In p (fst (resolve_bond molecule bond))) /\
      In (fst p) (molecule_atoms molecule) /\
      In (snd p) (molecule_atoms molecule)) /\
  In (fst p) (atoms s) /\ In (snd p) (atoms s).
Proof.
  intro Hin.
  destruct (connected_pairs_origin s p Hin)
    as [mol_type [molecule [Hmt [Hmol [Hbond [Ha Hb]]]]]].
  split.
  - exists mol_type, molecule. repeat split; assumption.
  - split; eapply molecule_atoms_in_atoms; eassumption.
Qed.

(** The first pair of water. *)
Lemma connected_pairs_within_molecule_witness :
  In 1%nat (atoms (self water_state)) /\ In 2%nat (atoms (self water_state)).
Proof.
  apply (@connected_pairs_within_molecule (self water_state) (1, 2)%nat).
  simpl. left. reflexivity.
Defined.

Lemma gen_for_length_sum {A B} (body : A -> gen B) (l : list A) :
  snd (gen_for l body) = None ->
  length (fst (gen_for l body)) =
  list_sum (map (fun x => length (fst (body x))) l).
Proof.
  intro Hstop.
  destruct (gen_for_completes body l Hstop) as [-> _]. clear Hstop.
  induction l as [|x l IH]; simpl; [reflexivity|].
  now rewrite length_app, IH.
Qed.

Lemma list_sum_constant {A} (f : A -> nat) (c : nat) (l : list A) :
  Forall (fun x => f x = c) l -> list_sum (map f l) = length l * c.
Proof.
  induction 1 as [|x l Hx _ IH]; simpl; [reflexivity|].
  now rewrite Hx, IH.
Qed.

Lemma list_sum_ext_in {A} (f h : A -> nat) (l : list A) :
  Forall (fun x => f x = h x) l -> list_sum (map f l) = list_sum (map h l).
Proof.
  induction 1 as [|x l Hx _ IH]; simpl; [reflexivity|].
  now rewrite Hx, IH.
Qed.

Lemma resolve_bond_one (molecule : Molecule) (bond : Bond) :
  snd (resolve_bond molecule bond) = None ->
  length (fst (resolve_bond molecule bond)) = 1%nat.
Proof.
  intro H. destruct (resolve_bond_completes molecule bond H) as [p ->].
  reflexivity.
Qed.

(** X10: when [connected_pairs] runs to its end, the number of pairs it
    yields is the sum, over the registered molecule types, of the number
    of molecules times the number of bond templates. *)
Theorem connected_pairs_count (s : System) :
  snd (connected_pairs s) = None ->
  length (fst (connected_pairs s)) =
  list_sum
    (map (fun mol_type =>
            length (molecules mol_type) * length (bonds mol_type))%nat
       (od_values (molecule_types s))).
Proof.
  intro Hstop. unfold connected_pairs in *.
  rewrite (gen_for_length_sum _ _ Hstop).
  destruct (gen_for_completes _ _ Hstop) as [_ Htypes].
  apply list_sum_ext_in.
  eapply Forall_impl; [|exact Htypes]. cbv beta.
  intros mol_type Hmt.
  rewrite (gen_for_length_sum _ _ Hmt).
  destruct (gen_for_completes _ _ Hmt) as [_ Hmols].
  apply list_sum_constant.
  eapply Forall_impl; [|exact Hmols]. cbv beta.
  intros molecule Hmol.
  apply gen_for_one_each; [|assumption].
  intros bond. apply resolve_bond_one.
Qed.

(** Water in three molecules: three times two pairs. *)
Lemma connected_pairs_count_witness :
  length (fst (connected_pairs water3_system)) =
  list_sum
    (map (fun mol_type =>
            length (molecules mol_type) * length (bonds mol_type))%nat
       (od_values (molecule_types water3_system))).
Proof.
  apply (@connected_pairs_count water3_system). reflexivity.
Defined.

Lemma gen_for_length_le {A B} (body : A -> gen B) (l : list A) :
  length (fst (gen_for l body)) <=
  list_sum (map (fun x => length (fst (body x))) l).
Proof.
  induction l as [|x l IH]; simpl; [lia|].
  destruct (body x) as [ys [e|]]; simpl; [lia|].
  destruct (gen_for l body) as [zs stop]. simpl in *.
  rewrite length_app. lia.
Qed.

Lemma list_sum_le {A} (f h : A -> nat) (l : list A) :
  (forall x, f x <= h x) -> list_sum (map f l) <= list_sum (map h l).
Proof.
  intro Hle. induction l as [|x l IH]; simpl; [lia|].
  specialize (Hle x). lia.
Qed.

Lemma resolve_bond_at_most_one (molecule : Molecule) (bond : Bond) :
  length (fst (resolve_bond molecule bond)) <= 1.
Proof.
  unfold resolve_bond, gen_raise, gen_yield.
  destruct (py_index _ (atom1 bond - 1)%Z); [|simpl; lia].
  destruct (py_index _ (atom2 bond - 1)%Z); simpl; lia.
Qed.

Lemma list_sum_flat_map_length {A B} (f : A -> list B) (l : list A) :
  length (flat_map f l) = list_sum (map (fun x => length (f x)) l).
Proof.
  induction l as [|x l IH]; simpl; [reflexivity|].
  now rewrite length_app, IH.
Qed.

Lemma pairs_of_moleculetype_at_most_bonds (mol_type : MoleculeType) :
  length (fst (pairs_of_moleculetype mol_type)) <= length (bonds mol_type).
Proof.
  unfold pairs_of_moleculetype.
  destruct (molecules mol_type) as [|molecule _]; [simpl; lia|].
  etransitivity; [apply gen_for_length_le|].
  etransitivity.
  - apply list_sum_le with (h := fun _ => 1%nat).
    intro bond. unfold gen_map. simpl. rewrite length_map.
    apply resolve_bond_at_most_one.
  - rewrite (@list_sum_constant _ (fun _ => 1%nat) 1%nat); [lia|].
    apply Forall_forall. reflexivity.
Qed.

(** X11: [connected_pairs_per_moleculetype] never yields more pairs than
    the generator [bonds] yields bond templates, whatever the molecules
    and whether or not it runs to its end. *)
Theorem connected_pairs_per_moleculetype_at_most_bonds (s : System) :
  length (fst (connected_pairs_per_moleculetype s)) <=
  length (system_bonds s).
Proof.
  unfold connected_pairs_per_moleculetype, system_bonds.
  etransitivity; [apply gen_for_length_le|].
  rewrite list_sum_flat_map_length.
  apply list_sum_le. apply pairs_of_moleculetype_at_most_bonds.
Qed.

Lemma gen_map_gen_for {A B C} (f : B -> C) (body : A -> gen B)
  (l : list A) :
  gen_map f (gen_for l body) = gen_for l (fun x => gen_map f (body x)).
Proof.
  unfold gen_map. induction l as [|x l IH]; simpl; [reflexivity|].
  destruct (body x) as [ys [e|]]; simpl; [reflexivity|].
  destruct (gen_for l body) as [zs stop]. simpl in *.
  rewrite <- IH. simpl. now rewrite map_app.
Qed.

Lemma gen_for_map {A A' B} (h : A -> A') (body : A' -> gen B)
  (l : list A) :
  gen_for (map h l) body = gen_for l (fun x => body (h x)).
Proof.
  induction l as [|x l IH]; simpl; [reflexivity|]. now rewrite IH.
Qed.

Lemma gen_for_ext {A B} (body body' : A -> gen B) (l : list A) :
  (forall x, body x = body' x) -> gen_for l body = gen_for l body'.
Proof.
  intro Hext. induction l as [|x l IH]; simpl; [reflexivity|].
  now rewrite Hext, IH.
Qed.

Lemma gen_for_one {A B} (body : A -> gen B) (x : A) :
  gen_for [x] body = body x.
Proof.
  simpl. destruct (body x) as [ys [e|]]; [reflexivity|].
  now rewrite app_nil_r.
Qed.

Lemma gen_map_id_tag (mol_type : MoleculeType) (g : gen (Atom * Atom)) :
  gen_map untag (gen_map (tag_pair mol_type) g) = g.
Proof.
  destruct g as [ps stop]. unfold gen_map. simpl. f_equal.
  rewrite map_map. rewrite <- (map_id ps) at 2.
  apply map_ext. now intros [a b].
Qed.

(** X12: without their tags, the pairs of
    [connected_pairs_per_moleculetype] are the pairs [connected_pairs]
    yields on the System with every molecule type cut down to its first
    molecule, and the two generators end the same way. *)
Theorem connected_pairs_per_moleculetype_is_first_molecules (s : System) :
  gen_map untag (connected_pairs_per_moleculetype s) =
  connected_pairs (first_molecules s).
Proof.
  unfold connected_pairs_per_moleculetype, connected_pairs, first_molecules.
  unfold molecule_types, with_molecule_types, od_values. cbn.
  rewrite map_map. cbn. rewrite <- (map_map snd first_molecule_only).
  rewrite (@gen_for_map _ _ _ first_molecule_only), gen_map_gen_for.
  apply gen_for_ext. intro mol_type.
  unfold pairs_of_moleculetype, first_molecule_only. cbn.
  destruct (molecules mol_type) as [|molecule rest]; [reflexivity|].
  cbn [firstn]. rewrite gen_for_one, gen_map_gen_for.
  apply gen_for_ext. intro bond. apply gen_map_id_tag.
Qed.

Lemma gen_for_stop_None {A B} (body : A -> gen B) (l : list A) :
  snd (gen_for l body) = None <-> (forall x, In x l -> snd (body x) = None).
Proof.
  split.
  - intros Hstop x Hx.
    destruct (gen_for_completes body l Hstop) as [_ Hall].
    rewrite Forall_forall in Hall. now apply Hall.
  - induction l as [|x l IH]; simpl; intro Hall; [reflexivity|].
    pose proof (Hall x (or_introl eq_refl)) as Hx.
    destruct (body x) as [ys [e|]]; [discriminate Hx|].
    destruct (gen_for l body) as [zs stop]. simpl in *.
    apply IH. intros y Hy. apply Hall. now right.
Qed.

Lemma gen_for_stop_Some {A B} (body : A -> gen B) (l : list A) (e : exn) :
  snd (gen_for l body) = Some e ->
  exists x, In x l /\ snd (body x) = Some e.
Proof.
  induction l as [|x l IH]; simpl; [discriminate|].
  destruct (body x) as [ys [e'|]] eqn:Hx; simpl.
  - intros [= ->]. exists x. rewrite Hx. split; [now left|reflexivity].
  - destruct (gen_for l body) as [zs stop]. simpl in *.
    intro Hstop. destruct (IH Hstop) as [y [Hy He]].
    exists y. split; [now right|assumption].
Qed.

Lemma resolve_bond_stop (m : Molecule) (b : Bond) :
  snd (resolve_bond m b) = None <->
  position_ok m (atom1 b) /\ position_ok m (atom2 b).
Proof.
  split.
  - intro Hstop.
    destruct (position_ok_dec m (atom1 b)) as [H1|H1];
      destruct (position_ok_dec m (atom2 b)) as [H2|H2];
      try (now split);
      rewrite resolve_bond_out_of_range in Hstop by tauto;
      discriminate Hstop.
  - intro Hok. destruct (@resolve_bond_in_range m b Hok) as [a1 [a2 [-> _]]].
    reflexivity.
Qed.

(** X13: [connected_pairs] runs to its end exactly when every bond
    template of every registered molecule type has both positions in
    range for every molecule of that type; the only exception that can
    stop it is IndexError. *)
Theorem connected_pairs_completes_iff (s : System) :
  (snd (connected_pairs s) = None <->
   forall mol_type molecule bond,
     In mol_type (od_values (molecule_types s)) ->
     In molecule (molecules mol_type) ->
     In bond (bonds mol_type) ->
     position_ok molecule (atom1 bond) /\
     position_ok molecule (atom2 bond)) /\
  (forall e,
      snd (connected_pairs s) = Some e ->
      e = IndexError "list index out of range").
Proof.
  unfold connected_pairs. split.
  - rewrite gen_for_stop_None. split.
    + intros H mol_type molecule bond Hmt Hmol Hbond.
      specialize (H mol_type Hmt). rewrite gen_for_stop_None in H.
      specialize (H molecule Hmol). rewrite gen_for_stop_None in H.
      apply resolve_bond_stop. now apply H.
    + intros H mol_type Hmt. apply gen_for_stop_None.
      intros molecule Hmol. apply gen_for_stop_None.
      intros bond Hbond. apply resolve_bond_stop.
      now apply (H mol_type molecule bond).
  - intros e He.
    apply gen_for_stop_Some in He. destruct He as [mol_type [_ He]].
    apply gen_for_stop_Some in He. destruct He as [molecule [_ He]].
    apply gen_for_stop_Some in He. destruct He as [bond [_ He]].
    destruct (position_ok_dec molecule (atom1 bond)) as [H1|H1];
      [destruct (position_ok_dec molecule (atom2 bond)) as [H2|H2]|].
    + apply (conj H1) in H2. apply resolve_bond_stop in H2. congruence.
    + rewrite resolve_bond_out_of_range in He by tauto. now injection He.
    + rewrite resolve_bond_out_of_range in He by tauto. now injection He.
Qed.

(** ** The graph that is built *)

Lemma distinct_pairs_snoc (l : list (Atom * Atom)) (p : Atom * Atom) :
  distinct_pairs (l ++ [p]) =
  distinct_pairs l && negb (existsb (same_edge p) l).
Proof.
  induction l as [|x l IH]; simpl; [reflexivity|].
  rewrite IH, existsb_app. simpl.
  rewrite (same_edge_sym p x), orb_false_r.
  destruct (existsb (same_edge x) l), (same_edge x p),
    (distinct_pairs l), (existsb (same_edge p) l); reflexivity.
Qed.

Lemma add_edges_from_distinct (ps : list (Atom * Atom)) (g : Graph) :
  distinct_pairs (edges g) = true ->
  distinct_pairs (edges (add_edges_from g ps)) = true.
Proof.
  revert g. induction ps as [|p ps IH]; intros g Hg; simpl; [assumption|].
  apply IH. unfold add_edge.
  destruct (has_edge g p) eqn:Hp; [assumption|]. simpl.
  rewrite distinct_pairs_snoc, Hg. unfold has_edge in Hp. now rewrite Hp.
Qed.

Lemma add_edges_from_incl (ps : list (Atom * Atom)) (g : Graph)
  (e : Atom * Atom) :
  In e (edges (add_edges_from g ps)) -> In e (edges g) \/ In e ps.
Proof.
  revert g. induction ps as [|p ps IH]; intros g Hin; simpl in *;
    [now left|].
  destruct (IH _ Hin) as [H|H]; [|right; now right].
  unfold add_edge in H. destruct (has_edge g p); [now left|].
  simpl in H. apply in_app_or in H.
  destruct H as [H|[<-|[]]]; [now left|right; now left].
Qed.

(** X14: the graph a first read of [bondgraph] builds, whether or not the
    read fails, is a simple graph on atoms of the System: no two of its
    edges join the same two atoms, each edge is one of the pairs of
    [connected_pairs] and joins two atoms that are among [atoms], and each
    of the pairs yielded is an edge. *)
Theorem bondgraph_is_simple (st : state) :
  _bondgraph (self st) = None ->
  let st1 := snd (bondgraph st) in
  let pairs := fst (connected_pairs (self st)) in
  exists (r : ref) (g : Graph),
    _bondgraph (self st1) = Some r /\
    deref st1 r = Some g /\
    distinct_pairs (edges g) = true /\
    (forall e, In e (edges g) ->
               In e pairs /\
               In (fst e) (atoms (self st)) /\
               In (snd e) (atoms (self st))) /\
    (forall p, In p pairs -> has_edge g p = true).
Proof.
  intros Hnone st1 pairs. subst st1 pairs.
  destruct (connected_pairs (self st)) as [ps stop] eqn:Hpairs.
  rewrite (bondgraph_first_read st Hnone Hpairs). cbn [fst snd].
  exists (length (heap st)), (add_edges_from (mkGraph []) ps).
  split; [reflexivity|].
  split; [apply nth_error_last|].
  split; [now apply add_edges_from_distinct|].
  split.
  - intros e He. apply add_edges_from_incl in He.
    destruct He as [[]|He].
    assert (Hin : In e (fst (connected_pairs (self st))))
      by now rewrite Hpairs.
    destruct (connected_pairs_origin _ _ Hin)
      as [mol_type [molecule [Hmt [Hmol [_ [Ha Hb]]]]]].
    split; [assumption|].
    split; eapply molecule_atoms_in_atoms; eassumption.
  - intros p Hp. apply add_edges_from_has. now right.
Qed.

(** The graph of the molecule whose one bond is listed from both ends. *)
Lemma bondgraph_is_simple_witness :
  exists (r : ref) (g : Graph),
    _bondgraph (self (snd (bondgraph twice_bonded_state))) = Some r /\
    deref (snd (bondgraph twice_bonded_state)) r = Some g /\
    distinct_pairs (edges g) = true /\
    (forall e, In e (edges g) ->
               In e (fst (connected_pairs (self twice_bonded_state))) /\
               In (fst e) (atoms (self twice_bonded_state)) /\
               In (snd e) (atoms (self twice_bonded_state))) /\
    (forall p, In p (fst (connected_pairs (self twice_bonded_state))) ->
               has_edge g p = true).
Proof.
  apply (@bondgraph_is_simple twice_bonded_state). reflexivity.
Defined.

(** * Further properties of the GROMACS driver *)

(** ** _find_gmx_binaries *)

(** X15: [_find_gmx_binaries] raises, and then IOError, exactly when
    neither wrapper and neither complete set of the three old programs is
    found; when it returns, the program of each of the three commands is
    [gmx_path] of a name that [which] found, and it is a double precision
    name whenever the wrapper gmx_d or the three old double precision
    programs are found. *)
Theorem find_gmx_binaries_choice (which : string -> bool)
  (gropath grosuff : string) :
  let found := _find_gmx_binaries which gropath grosuff in
  let old_double := which "grompp_d" && which "mdrun_d" && which "g_energy_d" in
  let old_single := which "grompp" && which "mdrun" && which "g_energy" in
  ((exists e, found = Raised e) <->
   which "gmx_d" = false /\ old_double = false /\
   which "gmx" = false /\ old_single = false) /\
  (forall e, found = Raised e -> exn_class e = "IOError") /\
  (forall grompp mdrun genergy,
      found = Ok (grompp, mdrun, genergy) ->
      Forall
        (fun command =>
           exists name arguments,
             command = gmx_path gropath grosuff name :: arguments /\
             which name = true /\
             (which "gmx_d" || old_double = true ->
              In name double_precision_names))
        [grompp; mdrun; genergy]).
Proof.
  intros found old_double old_single. subst found old_double old_single.
  unfold _find_gmx_binaries.
  destruct (which "gmx_d") eqn:Hgmx_d.
  { split; [split; [intros [e He]; discriminate He|intros [H _]; discriminate H]|].
    split; [intros e He; discriminate He|].
    intros grompp mdrun genergy [= <- <- <-].
    repeat constructor; eexists "gmx_d", _;
      (split; [reflexivity|split; [assumption|intros _; simpl; tauto]]). }
  destruct (which "grompp_d") eqn:Hgrompp_d,
           (which "mdrun_d") eqn:Hmdrun_d,
           (which "g_energy_d") eqn:Hgenergy_d; cbn [andb orb].
  1:{ split; [split; [intros [e He]; discriminate He
                     |intros [_ [H _]]; discriminate H]|].
      split; [intros e He; discriminate He|].
      intros grompp mdrun genergy [= <- <- <-].
      repeat constructor;
        [eexists "grompp_d", _|eexists "mdrun_d", _|eexists "g_energy_d", _];
        (split; [reflexivity|split; [assumption|intros _; simpl; tauto]]). }
  all: destruct (which "gmx") eqn:Hgmx.
  all: try (split; [split; [intros [e He]; discriminate He
                           |intros [_ [_ [H _]]]; discriminate H]|];
            split; [intros e He; discriminate He|];
            intros grompp mdrun genergy [= <- <- <-];
            repeat constructor; eexists "gmx", _;
            (split; [reflexivity|split; [assumption|intro H; discriminate H]])).
  all: destruct (which "grompp") eqn:Hgrompp, (which "mdrun") eqn:Hmdrun,
         (which "g_energy") eqn:Hgenergy; cbn [andb].
  all: try (split; [split; [intros _; repeat split
                           |intros _; eexists; reflexivity]|];
            split; [intros e [= <-]; reflexivity|];
            intros grompp mdrun genergy H; discriminate H).
  all: split; [split; [intros [e He]; discriminate He
                      |intros [_ [_ [_ H]]]; discriminate H]|];
       (split; [intros e He; discriminate He|]);
       intros grompp mdrun genergy [= <- <- <-];
       repeat constructor;
       [eexists "grompp", _|eexists "mdrun", _|eexists "g_energy", _];
       (split; [reflexivity|split; [assumption|intro H; discriminate H]]).
Qed.

(** ** Reading the energy file *)

Lemma py_split_nonempty (sep : ascii) (s : string) : py_split sep s <> [].
Proof.
  destruct s as [|ch s]; simpl; [discriminate|].
  destruct (Ascii.eqb ch sep); [discriminate|].
  destruct (py_split sep s); discriminate.
Qed.

Lemma py_split_no_separator (sep : ascii) (s : string) :
  contains_char sep s = false -> py_split sep s = [s].
Proof.
  induction s as [|ch s IH]; simpl; [reflexivity|].
  intro H. apply orb_false_iff in H. destruct H as [Hch Hs].
  rewrite Hch, (IH Hs). reflexivity.
Qed.

Lemma py_split_at_separator (sep : ascii) (before after : string) :
  contains_char sep before = false ->
  py_split sep (before ++ String sep after) = before :: py_split sep after.
Proof.
  induction before as [|ch s IH]; simpl.
  - intros _. now rewrite Ascii.eqb_refl.
  - intro H. apply orb_false_iff in H. destruct H as [Hch Hs].
    rewrite Hch, (IH Hs). reflexivity.
Qed.

Lemma py_index_second {A} (a b : A) (l : list A) :
  py_index (a :: b :: l) 1 = Ok b.
Proof.
  destruct (@py_index_in_range _ (a :: b :: l) 1%Z) as [x [Hx Hnth]].
  { simpl length. lia. }
  rewrite Hx. f_equal.
  rewrite Z.mod_small in Hnth by (simpl length; lia).
  simpl in Hnth. congruence.
Qed.

Lemma legend_line_name (line name : string) :
  legend_line line name ->
  py_index (py_split double_quote line) 1 = Ok name.
Proof.
  intros [before [after [-> [Hbefore Hname]]]].
  rewrite (py_split_at_separator _ _ _ Hbefore).
  rewrite (py_split_at_separator _ _ _ Hname).
  destruct (py_split double_quote after) eqn:Hafter;
    apply py_index_second.
Qed.

Lemma map_result_Forall2 {A B} (f : A -> result B) (l : list A)
  (ys : list B) :
  Forall2 (fun x y => f x = Ok y) l ys -> map_result f l = Ok ys.
Proof.
  induction 1 as [|x y l ys Hxy _ IH]; simpl; [reflexivity|].
  now rewrite Hxy, IH.
Qed.

(** X16: when each line of the file that begins with '@ s' holds a name
    between its first two double quotes, the energy types read from the
    file are those names, in the order of the lines; the other lines play
    no part. *)
Theorem energy_types_of_legends (all_lines names : list string) :
  Forall2 legend_line
    (filter (fun line => String.eqb (substring 0 3 line) "@ s") all_lines)
    names ->
  energy_types_of all_lines = Ok names.
Proof.
  intro Hlegends. unfold energy_types_of.
  apply map_result_Forall2.
  eapply Forall2_impl; [|exact Hlegends].
  intros line name. apply legend_line_name.
Qed.

(** The two legends of the small file. *)
Lemma energy_types_of_legends_witness :
  energy_types_of example_file = Ok ["Bond"; "LJ (SR)"].
Proof.
  apply (@energy_types_of_legends example_file ["Bond"; "LJ (SR)"]).
  simpl. repeat constructor.
  - exists "@ s0 legend ", "". repeat split.
  - exists "@ s1 legend ", "". repeat split.
Defined.

Lemma py_index_raises {A} (l : list A) (i : Z) (e : exn) :
  py_index l i = Raised e -> e = IndexError "list index out of range".
Proof.
  unfold py_index.
  destruct (_ || _)%bool; [now intros [= <-]|].
  destruct (nth_error l _); [discriminate|now intros [= <-]].
Qed.

Lemma map_result_raises {A B} (f : A -> result B) (l : list A) (x : A)
  (e0 : exn) :
  (forall y e, f y = Raised e -> e = e0) ->
  In x l -> f x = Raised e0 ->
  map_result f l = Raised e0.
Proof.
  intros Honly Hin Hx. induction l as [|y l IH]; [destruct Hin|].
  simpl. destruct (f y) as [b|e] eqn:Hy.
  - destruct Hin as [->|Hin]; [congruence|]. now rewrite (IH Hin).
  - now rewrite (Honly y e Hy).
Qed.

(** X17: reading an energy file raises IndexError when the file has no
    line at all, and when one of its lines that begin with '@ s' holds no
    double quote. *)
Theorem energy_file_raises_IndexError
  (float_of_string : string -> result float) (all_lines : list string)
  (ener_xvg : string) :
  all_lines = [] \/
  (exists line,
      In line all_lines /\
      String.eqb (substring 0 3 line) "@ s" = true /\
      contains_char double_quote line = false) ->
  _group_energy_terms_of_lines float_of_string all_lines ener_xvg =
  Raised (IndexError "list index out of range").
Proof.
  intros [->|[line [Hin [Hlegend Hquote]]]]; [reflexivity|].
  unfold _group_energy_terms_of_lines, energy_types_of.
  rewrite (@map_result_raises _ _ _ _ line
             (IndexError "list index out of range")).
  - reflexivity.
  - intros y e. apply py_index_raises.
  - apply filter_In. now split.
  - rewrite (py_split_no_separator _ _ Hquote). reflexivity.
Qed.

(** A file whose legend was written without quotes. *)
Lemma energy_file_raises_IndexError_witness :
  _group_energy_terms_of_lines (fun _ => Ok 0%float)
    ["@ s0 legend Bond"; "    0.000000  12.5"] "energy.xvg" =
  Raised (IndexError "list index out of range").
Proof.
  apply (@energy_file_raises_IndexError (fun _ => Ok 0%float)
           ["@ s0 legend Bond"; "    0.000000  12.5"] "energy.xvg").
  right. exists "@ s0 legend Bond". repeat split. simpl. tauto.
Defined.




(** ** The dictionary of energy terms *)

Lemma find_over_app {A} (f : A -> bool) (l l' : list A) :
  find f (l ++ l') =
  match find f l with
  | Some x => Some x
  | None => find f l'
  end.
Proof.
  induction l as [|x l IH]; simpl; [reflexivity|].
  destruct (f x); [reflexivity|assumption].
Qed.

Lemma od_of_zip_get {V} (ks : list string) (vs : list V) (d : odict V)
  (key : string) :
  od_get (od_of_zip ks vs d) key =
  match find (fun kv => String.eqb key (fst kv)) (rev (combine ks vs)) with
  | Some kv => Some (snd kv)
  | None => od_get d key
  end.
Proof.
  revert vs d. induction ks as [|k0 ks IH]; intros [|v vs] d;
    try reflexivity.
  cbn [od_of_zip combine rev]. rewrite IH, find_over_app.
  destruct (find _ (rev (combine ks vs))); [reflexivity|].
  cbn [find fst snd].
  destruct (String.eqb_spec key k0) as [->|Hne].
  - apply od_get_set_same.
  - now apply od_get_set_other.
Qed.

(** X19: in the dictionary built from the names and the values, a name
    that occurs more than once is bound once, to the value that goes with
    its last occurrence; names and values are paired off in order, and
    what is left of the longer list is dropped. *)
Theorem od_of_zip_last_value (energy_types : list string)
  (energy_values : list energy) (key : string) :
  let e_out := od_of_zip energy_types energy_values [] in
  NoDup (od_keys e_out) /\
  od_get e_out key =
    option_map snd
      (find (fun kv => String.eqb key (fst kv))
         (rev (combine energy_types energy_values))).
Proof.
  intro e_out. subst e_out. split.
  - apply od_of_zip_NoDup. constructor.
  - rewrite od_of_zip_get.
    now destruct (find _ (rev (combine energy_types energy_values))).
Qed.



















(* The statements that follow hold [_group_energy_terms] applied to
   variables; implicit arguments are not worked out for them. *)
Unset Implicit Arguments.



